(** * m4a_merger: discovery, natural sort, manifest and invocation

    A shallow embedding of [m4a_merger.py] and the proofs of its
    specification.

    Conventions of the embedding.
    - A Python [str] is a [string]; each character is read as the code
      point of the same number, so the texts of the model are those
      over U+0000..U+00FF.  On that range the pattern [\d] matches the
      ten characters '0'..'9', while [str.isdigit] also holds of the
      superscripts U+00B2, U+00B3 and U+00B9.
    - The marks U+2713 and U+2717 that start some printed lines lie
      outside that range; a printed line carries its mark as a tag.
    - A raised exception is a value of [exn]; code that can raise
      returns a [res].  Code with effects is a function from the file
      system to a result, the new file system and the events emitted.
    - The outside world (what [Path.resolve] answers, the name of the
      temporary directory, how a child process ends) is a [World]. *)

From Stdlib Require Import ZArith List String Ascii Bool Lia Permutation Sorted.
From stdpp Require Import base option list strings pretty gmap.

Local Open Scope Z_scope.

(** ** Exceptions *)

Module Py.

(** The classes of the exceptions the program names or can meet. *)
Inductive exn_class :=
| BaseException | SystemExit | KeyboardInterrupt | Exception
| ValueError | TypeError | OSError | FileNotFoundError
| NotADirectoryError | FileExistsError | PermissionError
| SubprocessError | TimeoutExpired.

Definition exn_class_eqb (a b : exn_class) : bool :=
  match a, b with
  | BaseException, BaseException | SystemExit, SystemExit
  | KeyboardInterrupt, KeyboardInterrupt | Exception, Exception
  | ValueError, ValueError | TypeError, TypeError | OSError, OSError
  | FileNotFoundError, FileNotFoundError
  | NotADirectoryError, NotADirectoryError
  | FileExistsError, FileExistsError | PermissionError, PermissionError
  | SubprocessError, SubprocessError | TimeoutExpired, TimeoutExpired => true
  | _, _ => false
  end.

(** The direct base class. *)
Definition base (c : exn_class) : option exn_class :=
  match c with
  | BaseException => None
  | SystemExit | KeyboardInterrupt | Exception => Some BaseException
  | ValueError | TypeError | OSError | SubprocessError => Some Exception
  | FileNotFoundError | NotADirectoryError | FileExistsError
  | PermissionError => Some OSError
  | TimeoutExpired => Some SubprocessError
  end.

(** [issubclass c d]; the hierarchy is four levels deep. *)
Fixpoint issubclass_upto (n : nat) (c d : exn_class) : bool :=
  exn_class_eqb c d ||
  match n with
  | O => false
  | S n' => match base c with
            | Some b => issubclass_upto n' b d
            | None => false
            end
  end.

Definition issubclass : exn_class -> exn_class -> bool := issubclass_upto 4.

(** An exception: an error with its message, or [SystemExit] with its
    code. *)
Inductive exn :=
| Error (c : exn_class) (msg : string)
| SysExit (code : Z).

Definition class_of (e : exn) : exn_class :=
  match e with
  | Error c _ => c
  | SysExit _ => SystemExit
  end.

(** [str(e)] *)
Definition str_exn (e : exn) : string :=
  match e with
  | Error _ msg => msg
  | SysExit code => pretty code
  end.

(** [isinstance(e, (c1, c2, ...))] *)
Definition isinstance (e : exn) (cs : list exn_class) : bool :=
  existsb (issubclass (class_of e)) cs.

Inductive res (A : Type) :=
| Ret (a : A)
| Raise (e : exn).
Arguments Ret {A} a.
Arguments Raise {A} e.

Definition rbind {A B} (m : res A) (k : A -> res B) : res B :=
  match m with
  | Ret a => k a
  | Raise e => Raise e
  end.

(** A comprehension [[f(x) for x in l]], stopped by the first raise. *)
Fixpoint rmap {A B} (f : A -> res B) (l : list A) : res (list B) :=
  match l with
  | [] => Ret []
  | x :: l' => rbind (f x) (fun y => rbind (rmap f l') (fun ys => Ret (y :: ys)))
  end.

End Py.
Import Py.

(** ** Strings *)

Definition LF : string := String "010"%char "".
Definition quote : ascii := "'"%char.

(** What [\d] matches. *)
Definition re_digit (c : ascii) : bool :=
  let n := nat_of_ascii c in (48 <=? n)%nat && (n <=? 57)%nat.

(** The characters of which [str.isdigit] holds. *)
Definition isdigit_char (c : ascii) : bool :=
  let n := nat_of_ascii c in
  re_digit c || (n =? 178)%nat || (n =? 179)%nat || (n =? 185)%nat.

(** [s.isdigit()]: at least one character, and all of them digits. *)
Definition isdigit (s : string) : bool :=
  negb (String.eqb s "") && forallb isdigit_char (list_ascii_of_string s).

Definition digit_value (c : ascii) : Z := Z.of_nat (nat_of_ascii c) - 48.

(** The value of a run of decimal digits, most significant first. *)
Definition decimal_value (s : string) : Z :=
  fold_left (fun acc c => 10 * acc + digit_value c) (list_ascii_of_string s) 0.

(** [int(s)] on the strings it is called with here, those of which
    [isdigit] holds: the value when every character is a decimal
    digit, [ValueError] otherwise. *)
Definition int (s : string) : res Z :=
  if negb (String.eqb s "") && forallb re_digit (list_ascii_of_string s)
  then Ret (decimal_value s)
  else Raise (Error ValueError
                ("invalid literal for int() with base 10: '" +:+ s +:+ "'")).

(** [re.split(r'(\d+)', text)], scanned left to right: [run] is the
    run being read and [digits] tells whether it is a digit run.  The
    result starts and ends with a run of other characters, possibly
    empty. *)
Fixpoint re_split_from (run : string) (digits : bool) (text : string)
  : list string :=
  match text with
  | EmptyString => if digits then [run; ""] else [run]
  | String c rest =>
      if Bool.eqb (re_digit c) digits
      then re_split_from (run +:+ String c "") digits rest
      else run :: re_split_from (String c "") (negb digits) rest
  end.

Definition re_split_digits (text : string) : list string :=
  re_split_from "" false text.

(** ** Pure paths ([pathlib.PurePosixPath]) *)

(** [s.split(sep)] *)
Fixpoint split_on (sep : ascii) (s : string) : list string :=
  match s with
  | EmptyString => [""]
  | String c rest =>
      if Ascii.eqb c sep then "" :: split_on sep rest
      else match split_on sep rest with
           | h :: t => String c h :: t
           | [] => [String c ""]
           end
  end.

(** [sep.join(l)] *)
Fixpoint str_join (sep : string) (l : list string) : string :=
  match l with
  | [] => ""
  | [x] => x
  | x :: l' => x +:+ sep +:+ str_join sep l'
  end.

(** [s.lstrip('/')] *)
Fixpoint lstrip_sep (s : string) : string :=
  match s with
  | String c rest => if Ascii.eqb c "/" then lstrip_sep rest else s
  | EmptyString => s
  end.

(** [splitroot]: the root and the rest.  Exactly two leading slashes
    are a root of their own; one, or three and more, are the root "/". *)
Definition splitroot (part : string) : string * string :=
  match part with
  | String c _ =>
      if Ascii.eqb c "/" then
        let stripped := lstrip_sep part in
        if (String.length part - String.length stripped =? 2)%nat
        then ("//", stripped) else ("/", stripped)
      else ("", part)
  | EmptyString => ("", part)
  end.

(** A path: its root ("", "/" or "//") and its components. *)
Record Path := MkPath { root : string; tail : list string }.

Definition Path_eqb (p q : Path) : bool :=
  String.eqb (root p) (root q) && bool_decide (tail p = tail q).

(** [Path(s)]: empty components and "." are dropped. *)
Definition PathOf (s : string) : Path :=
  let '(rt, rel) := splitroot s in
  MkPath rt (List.filter (fun x => negb (String.eqb x "") && negb (String.eqb x "."))
                         (split_on "/" rel)).

(** [str(p)] *)
Definition str (p : Path) : string :=
  match root p, tail p with
  | EmptyString, [] => "."
  | rt, tl => rt +:+ str_join "/" tl
  end.

(** [p.name] *)
Definition name (p : Path) : string := List.last (tail p) "".

(** [p.parent]; a path without components is its own parent. *)
Definition parent (p : Path) : Path := MkPath (root p) (removelast (tail p)).

(** [p / q] for a path [q] *)
Definition joinpath (p q : Path) : Path :=
  if String.eqb (root q) "" then MkPath (root p) (tail p ++ tail q) else q.

(** [p / s] for a string [s] *)
Definition joinstr (p : Path) (s : string) : Path := joinpath p (PathOf s).

(** ** Natural sort *)

(** An entry of a sort key: an [int] or a [str]. *)
Inductive key_item :=
| KInt (n : Z)
| KStr (s : string).

Definition key := list key_item.

(** [int(c) if c.isdigit() else c] *)
Definition key_entry (c : string) : res key_item :=
  if isdigit c then rbind (int c) (fun n => Ret (KInt n)) else Ret (KStr c).

(** [natural_sort_key(text)], for a path or a string *)
Definition natural_sort_key (text : Path + string) : res key :=
  let text := match text with
              | inl p => name p
              | inr s => s
              end in
  rmap key_entry (re_split_digits text).

(** [x == y] on key entries; an [int] never equals a [str]. *)
Definition item_eqb (x y : key_item) : bool :=
  match x, y with
  | KInt m, KInt n => Z.eqb m n
  | KStr s, KStr t => String.eqb s t
  | _, _ => false
  end.

Definition type_name (x : key_item) : string :=
  match x with
  | KInt _ => "int"
  | KStr _ => "str"
  end.

(** [x < y] on key entries: numbers by magnitude, strings by code
    points; across the two types it raises [TypeError]. *)
Definition item_lt (x y : key_item) : res bool :=
  match x, y with
  | KInt m, KInt n => Ret (Z.ltb m n)
  | KStr s, KStr t => Ret (String.ltb s t)
  | _, _ => Raise (Error TypeError
                     ("'<' not supported between instances of '" +:+ type_name x
                      +:+ "' and '" +:+ type_name y +:+ "'"))
  end.

(** [a < b] on lists: the first entries that differ decide; when one
    list is a prefix of the other the shorter is the smaller. *)
Fixpoint list_lt (a b : key) : res bool :=
  match a, b with
  | x :: a', y :: b' => if item_eqb x y then list_lt a' b' else item_lt x y
  | [], _ :: _ => Ret true
  | _, [] => Ret false
  end.

(** [list.sort(key=...)] keeps the entries of equal keys in their
    order.  It is embedded as the insertion sort that takes the entries
    in their order and puts each after the entries that are not
    greater; it compares with [<] only, as Python does. *)
Fixpoint insert_sorted {A} (x : key * A) (sorted : list (key * A))
  : res (list (key * A)) :=
  match sorted with
  | [] => Ret [x]
  | y :: rest =>
      rbind (list_lt (fst x) (fst y)) (fun lt =>
        if lt then Ret (x :: y :: rest)
        else rbind (insert_sorted x rest) (fun rest' => Ret (y :: rest')))
  end.

Fixpoint sort_decorated {A} (todo sorted : list (key * A))
  : res (list (key * A)) :=
  match todo with
  | [] => Ret sorted
  | x :: todo' => rbind (insert_sorted x sorted) (sort_decorated todo')
  end.

(** [l.sort(key=natural_sort_key)]: every key is computed first. *)
Definition sort_by_key (l : list Path) : res (list Path) :=
  rbind (rmap (fun p => rbind (natural_sort_key (inl p)) (fun k => Ret (k, p))) l)
    (fun decorated =>
       rbind (sort_decorated decorated []) (fun sorted => Ret (map snd sorted))).

(** ** The file system *)

(** What a path names: a file, or a directory with the names of its
    entries in the order in which a scan returns them. *)
Inductive node :=
| File
| Dir (entries : list string).

Abbreviation filesystem := (gmap (string * list string) node).

Definition key_of (p : Path) : string * list string := (root p, tail p).

(** The working directory and the roots always exist. *)
Definition node_at (fs : filesystem) (p : Path) : option node :=
  match fs !! key_of p with
  | Some n => Some n
  | None => match tail p with
            | [] => Some (Dir [])
            | _ :: _ => None
            end
  end.

(** [p.exists()] *)
Definition exists_ (fs : filesystem) (p : Path) : bool :=
  match node_at fs p with
  | Some _ => true
  | None => false
  end.

(** [p.is_dir()] *)
Definition is_dir (fs : filesystem) (p : Path) : bool :=
  match node_at fs p with
  | Some (Dir _) => true
  | _ => false
  end.

(** [s.endswith(suffix)] *)
Definition endswith (s suffix : string) : bool :=
  let n := String.length s in
  let k := String.length suffix in
  (k <=? n)%nat && String.eqb (substring (n - k) k s) suffix.

(** [p.glob("*" + suffix)]: the entries of the directory whose name
    ends in [suffix], in scan order, each as a child of [p]. *)
Definition glob (fs : filesystem) (p : Path) (suffix : string) : list Path :=
  match node_at fs p with
  | Some (Dir entries) =>
      map (fun n => MkPath (root p) (tail p ++ [n]))
          (List.filter (fun n => endswith n suffix) entries)
  | _ => []
  end.

(** [os.mkdir(p)] *)
Definition os_mkdir (p : Path) (fs : filesystem) : res unit * filesystem :=
  match node_at fs p with
  | Some _ =>
      (Raise (Error FileExistsError ("[Errno 17] File exists: '" +:+ str p +:+ "'")), fs)
  | None =>
      match node_at fs (parent p) with
      | None =>
          (Raise (Error FileNotFoundError
                    ("[Errno 2] No such file or directory: '" +:+ str p +:+ "'")), fs)
      | Some File =>
          (Raise (Error NotADirectoryError
                    ("[Errno 20] Not a directory: '" +:+ str p +:+ "'")), fs)
      | Some (Dir entries) =>
          (Ret tt, <[key_of p := Dir []]>
                     (<[key_of (parent p) := Dir (entries ++ [name p])]> fs))
      end
  end.

(** [p.mkdir(parents=False, exist_ok=exist_ok)] *)
Definition mkdir_flat (p : Path) (exist_ok : bool) (fs : filesystem)
  : res unit * filesystem :=
  match os_mkdir p fs with
  | (Ret u, fs') => (Ret u, fs')
  | (Raise e, fs') =>
      if isinstance e [FileNotFoundError] then (Raise e, fs')
      else if isinstance e [OSError] then
        if negb exist_ok || negb (is_dir fs' p) then (Raise e, fs') else (Ret tt, fs')
      else (Raise e, fs')
  end.

(** [p.mkdir(parents=True, exist_ok=exist_ok)], for the path with root
    [rt] and the components [rev rtail]: when the parent is missing it
    is made first, with its own parents, and then the directory. *)
Fixpoint mkdir_parents (rt : string) (rtail : list string) (exist_ok : bool)
    (fs : filesystem) : res unit * filesystem :=
  let self := MkPath rt (rev rtail) in
  match os_mkdir self fs with
  | (Ret u, fs') => (Ret u, fs')
  | (Raise e, fs') =>
      if isinstance e [FileNotFoundError] then
        match rtail with
        | [] => (Raise e, fs')
        | _ :: rparent =>
            match mkdir_parents rt rparent true fs' with
            | (Ret _, fs'') => mkdir_flat self exist_ok fs''
            | (Raise e', fs'') => (Raise e', fs'')
            end
        end
      else if isinstance e [OSError] then
        if negb exist_ok || negb (is_dir fs' self) then (Raise e, fs') else (Ret tt, fs')
      else (Raise e, fs')
  end.

(** [p.mkdir(parents=parents, exist_ok=exist_ok)] *)
Definition Path_mkdir (p : Path) (parents exist_ok : bool) (fs : filesystem)
  : res unit * filesystem :=
  if parents then mkdir_parents (root p) (rev (tail p)) exist_ok fs
  else mkdir_flat p exist_ok fs.

(** ** Effects *)

Inductive mark := NoMark | CheckMark | CrossMark.

(** What a run does that can be seen from outside. *)
Inductive event :=
| Print (m : mark) (text : string)
| WriteFile (p : Path) (content : string)
| Spawn (cmd : list string) (timeout : Z).

Definition M (A : Type) : Type := filesystem -> res A * filesystem * list event.

Definition ret {A} (a : A) : M A := fun fs => (Ret a, fs, []).

Definition raise {A} (e : exn) : M A := fun fs => (Raise e, fs, []).

Definition bind {A B} (m : M A) (k : A -> M B) : M B :=
  fun fs =>
    match m fs with
    | (Ret a, fs', out) => let '(r, fs'', out') := k a fs' in (r, fs'', out ++ out')
    | (Raise e, fs', out) => (Raise e, fs', out)
    end.

Notation "x <- m ;; k" := (bind m (fun x => k))
  (at level 100, m at next level, right associativity).
Notation "m ;; k" := (bind m (fun _ => k))
  (at level 100, right associativity).

Definition lift {A} (r : res A) : M A := fun fs => (r, fs, []).

Definition get_fs : M filesystem := fun fs => (Ret fs, fs, []).

Definition print (m : mark) (text : string) : M unit :=
  fun fs => (Ret tt, fs, [Print m text]).

(** [sys.exit(code)] *)
Definition sys_exit {A} (code : Z) : M A := raise (SysExit code).

(** [try: body except classes1: h1 except classes2: h2 ...]: the first
    clause that the exception is an instance of handles it. *)
Definition try_except {A} (body : M A)
    (handlers : list (list exn_class * (exn -> M A))) : M A :=
  fun fs =>
    match body fs with
    | (Ret a, fs', out) => (Ret a, fs', out)
    | (Raise e, fs', out) =>
        match List.find (fun h => isinstance e (fst h)) handlers with
        | Some h => let '(r, fs'', out') := snd h e fs' in (r, fs'', out ++ out')
        | None => (Raise e, fs', out)
        end
    end.

(** [for x in l: body(x)] *)
Fixpoint for_each {A} (l : list A) (body : A -> M unit) : M unit :=
  match l with
  | [] => ret tt
  | x :: l' => body x;; for_each l' body
  end.

(** [p.mkdir(parents=..., exist_ok=...)] as an effect *)
Definition mkdir (p : Path) (parents exist_ok : bool) : M unit :=
  fun fs => let '(r, fs') := Path_mkdir p parents exist_ok fs in (r, fs', []).

(** ** The outside world *)

Record CompletedProcess :=
  { returncode : Z; stdout : string; stderr : string }.

Record World :=
  { (** [p.resolve()] *)
    resolve : Path -> Path;
    (** the name [tempfile.TemporaryDirectory()] gives *)
    temp_dir : string;
    (** how [subprocess.run(cmd, capture_output=True, text=True,
        timeout=t)] ends: with the finished process, or raising *)
    subprocess_run : list string -> Z -> res CompletedProcess }.

Definition run (w : World) (cmd : list string) (timeout : Z) : M CompletedProcess :=
  fun fs => (subprocess_run w cmd timeout, fs, [Spawn cmd timeout]).

(** ** The program *)

Definition check_ffmpeg (w : World) : M bool :=
  try_except
    (result <- run w ["ffmpeg"; "-version"] 10;;
     ret (returncode result =? 0))
    [([TimeoutExpired; FileNotFoundError], fun _ => ret false)].

Definition find_m4a_files (directory : string) : M (list Path) :=
  let directory_path := PathOf directory in
  fs <- get_fs;;
  if negb (exists_ fs directory_path) then
    raise (Error FileNotFoundError ("Directory '" +:+ directory +:+ "' does not exist"))
  else if negb (is_dir fs directory_path) then
    raise (Error NotADirectoryError ("'" +:+ directory +:+ "' is not a directory"))
  else
    let m4a_files := glob fs directory_path ".m4a" in
    match m4a_files with
    | [] => raise (Error ValueError ("No M4A files found in '" +:+ directory +:+ "'"))
    | _ :: _ => lift (sort_by_key m4a_files)
    end.

(** The line written for one file. *)
Definition manifest_line (abs_path : Path) : string :=
  "file '" +:+ str abs_path +:+ "'" +:+ LF.

(** The file is opened for writing, one line is written per file, in
    the order of the list, and the file is closed. *)
Definition create_file_list (w : World) (m4a_files : list Path) (temp_dir : string)
  : M Path :=
  let file_list_path := joinstr (PathOf temp_dir) "filelist.txt" in
  let content :=
    fold_left (fun f m4a_file => f +:+ manifest_line (resolve w m4a_file))
              m4a_files "" in
  fun fs => (Ret file_list_path, fs, [WriteFile file_list_path content]).

(** The temporary directory and the manifest live inside this
    function and are gone when it returns; they are not entered into
    the file system, the manifest is seen as its [WriteFile] event. *)
Definition merge_m4a_files (w : World) (m4a_files : list Path) (output_file : Path)
  : M bool :=
  let temp_dir := temp_dir w in
  file_list_path <- create_file_list w m4a_files temp_dir;;
  let cmd := ["ffmpeg"; "-f"; "concat"; "-safe"; "0"; "-i"; str file_list_path;
              "-c"; "copy"; "-y"; str output_file] in
  print NoMark ("Merging " +:+ pretty (length m4a_files) +:+ " M4A files...");;
  print NoMark ("Output: " +:+ str output_file);;
  try_except
    (result <- run w cmd 300;;
     if returncode result =? 0 then
       print CheckMark " Merge completed successfully!";;
       ret true
     else
       print CrossMark (" FFmpeg error: " +:+ stderr result);;
       ret false)
    [([TimeoutExpired], fun _ =>
        print CrossMark " Merge timed out (5 minutes)";; ret false);
     ([Exception], fun e =>
        print CrossMark (" Error during merge: " +:+ str_exn e);; ret false)].

(** The parsed command line. *)
Record Args := { input : string; output : string; verbose : bool }.

(** Lines 158-160 of [main]: a path without a directory goes under
    "merged". *)
Definition resolve_output_path (output : string) : Path :=
  let output_path := PathOf output in
  if Path_eqb (parent output_path) (PathOf ".")
  then joinpath (PathOf "merged") output_path
  else output_path.

(** [enumerate(l, i)] *)
Fixpoint enumerate {A} (l : list A) (i : nat) : list (nat * A) :=
  match l with
  | [] => []
  | x :: l' => (i, x) :: enumerate l' (S i)
  end.

(** The [try] block of [main]. *)
Definition main_try (w : World) (args : Args) : M unit :=
  m4a_files <- find_m4a_files (input args);;
  (if verbose args then
     print NoMark ("Found " +:+ pretty (length m4a_files) +:+ " M4A files:");;
     for_each (enumerate m4a_files 1)
       (fun '(i, file) => print NoMark ("  " +:+ pretty i +:+ ". " +:+ name file));;
     print NoMark ""
   else ret tt);;
  let output_path := resolve_output_path (output args) in
  mkdir (parent output_path) true true;;
  success <- merge_m4a_files w m4a_files output_path;;
  if success then
    print CheckMark (" Merged file saved to: " +:+ str (resolve w output_path));;
    sys_exit 0
  else
    print CrossMark " Merge failed";;
    sys_exit 1.

(** Its [except] clauses. *)
Definition main_except : list (list exn_class * (exn -> M unit)) :=
  [([FileNotFoundError; NotADirectoryError; ValueError], fun e =>
      print CrossMark (" Error: " +:+ str_exn e);; sys_exit 1);
   ([KeyboardInterrupt], fun _ =>
      print NoMark "";; print CrossMark " Merge cancelled by user";; sys_exit 1);
   ([Exception], fun e =>
      print CrossMark (" Unexpected error: " +:+ str_exn e);; sys_exit 1)].

(** [main], from the availability check on (the command line is
    already parsed). *)
Definition main (w : World) (args : Args) : M unit :=
  ok <- check_ffmpeg w;;
  (if negb ok then
     print CrossMark " FFmpeg is not installed or not in PATH";;
     print NoMark "Please install FFmpeg: https://ffmpeg.org/download.html";;
     sys_exit 1
   else ret tt);;
  try_except (main_try w args) main_except.

(** ** Notions used to state the properties *)

(** A run of digits: every character is matched by [\d]. *)
Definition all_digits (s : string) : bool :=
  forallb re_digit (list_ascii_of_string s).

(** A run of other characters. *)
Definition no_digit (s : string) : bool :=
  forallb (fun c => negb (re_digit c)) (list_ascii_of_string s).

(** Runs that alternate and end with a run of other characters;
    [digits] tells the kind of the first one.  A digit run is not
    empty. *)
Fixpoint alternating (digits : bool) (runs : list string) : bool :=
  match runs with
  | [] => false
  | [r] => negb digits && no_digit r
  | r :: runs' =>
      (if digits then negb (String.eqb r "") && all_digits r else no_digit r)
      && alternating (negb digits) runs'
  end.

(** A key whose entries alternate; [ints] tells whether the first one
    is an [int]. *)
Fixpoint alternates (ints : bool) (k : key) : bool :=
  match k with
  | [] => true
  | KInt _ :: k' => ints && alternates (negb ints) k'
  | KStr _ :: k' => negb ints && alternates (negb ints) k'
  end.

(** The order on key entries and on keys as a three-way comparison.
    Between an [int] and a [str], where Python has no order, the [int]
    is put first; keys that alternate never meet that case. *)
Definition item_compare (x y : key_item) : comparison :=
  match x, y with
  | KInt m, KInt n => Z.compare m n
  | KStr s, KStr t => String.compare s t
  | KInt _, KStr _ => Lt
  | KStr _, KInt _ => Gt
  end.

Fixpoint key_compare (a b : key) : comparison :=
  match a, b with
  | [], [] => Eq
  | [], _ :: _ => Lt
  | _ :: _, [] => Gt
  | x :: a', y :: b' =>
      match item_compare x y with
      | Eq => key_compare a' b'
      | c => c
      end
  end.

Definition key_ltb (a b : key) : bool :=
  match key_compare a b with
  | Lt => true
  | _ => false
  end.

Definition key_eqb (a b : key) : bool :=
  match key_compare a b with
  | Eq => true
  | _ => false
  end.

(** [a] is not after [b]. *)
Definition key_le (a b : key) : Prop := key_compare a b <> Gt.

(** [c in s] for a character *)
Definition contains_char (c : ascii) (s : string) : bool :=
  existsb (Ascii.eqb c) (list_ascii_of_string s).

(** The lines of a text: the pieces between line feeds; the empty
    piece after a final line feed is not a line. *)
Definition text_lines (s : string) : list string :=
  let pieces := split_on "010" s in
  if String.eqb (List.last pieces "") "" then removelast pieces else pieces.

(** The text up to the first single quote, and what follows that
    quote. *)
Fixpoint until_quote (s : string) : option (string * string) :=
  match s with
  | EmptyString => None
  | String c rest =>
      if Ascii.eqb c quote then Some ("", rest)
      else match until_quote rest with
           | Some (body, after) => Some (String c body, after)
           | None => None
           end
  end.

(** The path a manifest line quotes: the line is [file '], the path
    up to the next quote, and the line feed.  A line of another form
    quotes no path. *)
Definition quoted_path (line : string) : option string :=
  if String.prefix "file '" line then
    match until_quote (substring 6 (String.length line - 6) line) with
    | Some (body, after) => if String.eqb after LF then Some body else None
    | None => None
    end
  else None.

(** How the process ends. *)
Inductive outcome :=
| Exited (code : Z)
| Uncaught (e : exn).

(** [main] returning is the exit status 0. *)
Definition outcome_of (r : res unit) : outcome :=
  match r with
  | Ret _ => Exited 0
  | Raise (SysExit code) => Exited code
  | Raise e => Uncaught e
  end.

Definition is_print (ev : event) : bool :=
  match ev with
  | Print _ _ => true
  | _ => false
  end.

(** The listing a verbose run prints. *)
Definition listing (m4a_files : list Path) : list event :=
  Print NoMark ("Found " +:+ pretty (length m4a_files) +:+ " M4A files:")
  :: map (fun '(i, file) => Print NoMark ("  " +:+ pretty i +:+ ". " +:+ name file))
         (enumerate m4a_files 1)
  ++ [Print NoMark ""].

Definition run_ok (digits : bool) (run : string) : bool :=
  if digits then negb (String.eqb run "") && all_digits run else no_digit run.

(** Empty, or starting with a character that is not a digit. *)
Definition starts_other (s : string) : bool :=
  match s with
  | EmptyString => true
  | String c _ => negb (re_digit c)
  end.

(** The text made of the given lines, each closed by a line feed. *)
Fixpoint unlines (ls : list string) : string :=
  match ls with
  | [] => ""
  | l :: ls' => l +:+ LF +:+ unlines ls'
  end.

(** ** The sort without the raises *)

(** The insertion sort over the order [key_ltb], without the
    possibility of a raise; the sort of the program is compared with
    it. *)
Fixpoint insert_by {A} (x : key * A) (sorted : list (key * A)) : list (key * A) :=
  match sorted with
  | [] => [x]
  | y :: rest =>
      if key_ltb (fst x) (fst y) then x :: y :: rest else y :: insert_by x rest
  end.

Fixpoint sort_by {A} (todo sorted : list (key * A)) : list (key * A) :=
  match todo with
  | [] => sorted
  | x :: todo' => sort_by todo' (insert_by x sorted)
  end.

(** The key of a path, [[]] when [natural_sort_key] raises. *)
Definition path_key (p : Path) : key :=
  match natural_sort_key (inl p) with
  | Ret k => k
  | Raise _ => []
  end.

Definition has_key (p : Path) : Prop := exists k, natural_sort_key (inl p) = Ret k.

Definition dec_le {A} (x y : key * A) : Prop := key_le (fst x) (fst y).

Definition dec_ok {A} (x : key * A) : Prop := alternates false (fst x) = true.

Definition decorate (p : Path) : key * Path := (path_key p, p).

Definition tagged (y : key * Path) : Prop := fst y = path_key (snd y).

(** ** The program written out by cases *)

Definition probe_cmd : list string := ["ffmpeg"; "-version"].

(** The command line of the merge. *)
Definition merge_cmd (w : World) (output_file : Path) : list string :=
  ["ffmpeg"; "-f"; "concat"; "-safe"; "0"; "-i";
   str (joinstr (PathOf (temp_dir w)) "filelist.txt");
   "-c"; "copy"; "-y"; str output_file].

(** The manifest [merge_m4a_files] writes. *)
Definition manifest (w : World) (m4a_files : list Path) : string :=
  fold_left (fun f m4a_file => f +:+ manifest_line (resolve w m4a_file)) m4a_files "".

(** What the merge prints once the child process has ended. *)
Definition merge_report (r : res CompletedProcess) : list event :=
  match r with
  | Ret result =>
      if returncode result =? 0
      then [Print CheckMark " Merge completed successfully!"]
      else [Print CrossMark (" FFmpeg error: " +:+ stderr result)]
  | Raise e =>
      if isinstance e [TimeoutExpired]
      then [Print CrossMark " Merge timed out (5 minutes)"]
      else if isinstance e [Exception]
           then [Print CrossMark (" Error during merge: " +:+ str_exn e)]
           else []
  end.

(** What the merge returns. *)
Definition merge_result (r : res CompletedProcess) : res bool :=
  match r with
  | Ret result => Ret (returncode result =? 0)
  | Raise e =>
      if isinstance e [TimeoutExpired] then Ret false
      else if isinstance e [Exception] then Ret false
           else Raise e
  end.

Definition verbose_block (flag : bool) (m4a_files : list Path) : list event :=
  if flag then listing m4a_files else [].

(** What the merge emits. *)
Definition merge_events (w : World) (m4a_files : list Path) (output_file : Path)
  : list event :=
  [WriteFile (joinstr (PathOf (temp_dir w)) "filelist.txt") (manifest w m4a_files);
   Print NoMark ("Merging " +:+ pretty (length m4a_files) +:+ " M4A files...");
   Print NoMark ("Output: " +:+ str output_file);
   Spawn (merge_cmd w output_file) 300]
  ++ merge_report (subprocess_run w (merge_cmd w output_file) 300).

(** The [try] block by cases: on what discovery gives, on what making
    the directory gives and on how the merge ends. *)
Definition main_try_run (w : World) (args : Args) (fs : filesystem)
  : res unit * filesystem * list event :=
  match (find_m4a_files (input args) fs).1.1 with
  | Raise e => (Raise e, fs, [])
  | Ret m4a_files =>
      let listed := verbose_block (verbose args) m4a_files in
      let output_path := resolve_output_path (output args) in
      match Path_mkdir (parent output_path) true true fs with
      | (Raise e, fs') => (Raise e, fs', listed)
      | (Ret _, fs') =>
          let merged := merge_events w m4a_files output_path in
          match merge_result (subprocess_run w (merge_cmd w output_path) 300) with
          | Ret true =>
              (Raise (SysExit 0), fs',
               listed ++ merged
               ++ [Print CheckMark (" Merged file saved to: " +:+ str (resolve w output_path))])
          | Ret false =>
              (Raise (SysExit 1), fs', listed ++ merged ++ [Print CrossMark " Merge failed"])
          | Raise e => (Raise e, fs', listed ++ merged)
          end
      end
  end.

(** What the [except] clauses make of an exception: the lines printed
    and the exception that leaves [main]. *)
Definition main_handled (e : exn) : list event * exn :=
  if isinstance e [FileNotFoundError; NotADirectoryError; ValueError]
  then ([Print CrossMark (" Error: " +:+ str_exn e)], SysExit 1)
  else if isinstance e [KeyboardInterrupt]
  then ([Print NoMark ""; Print CrossMark " Merge cancelled by user"], SysExit 1)
  else if isinstance e [Exception]
  then ([Print CrossMark (" Unexpected error: " +:+ str_exn e)], SysExit 1)
  else ([], e).

(** [main] by cases on what the check gives. *)
Definition main_run (w : World) (args : Args) (fs : filesystem)
  : res unit * filesystem * list event :=
  match (check_ffmpeg w fs).1.1 with
  | Raise e => (Raise e, fs, [Spawn probe_cmd 10])
  | Ret false =>
      (Raise (SysExit 1), fs,
       [Spawn probe_cmd 10;
        Print CrossMark " FFmpeg is not installed or not in PATH";
        Print NoMark "Please install FFmpeg: https://ffmpeg.org/download.html"])
  | Ret true =>
      match main_try_run w args fs with
      | (Ret a, fs', out) => (Ret a, fs', Spawn probe_cmd 10 :: out)
      | (Raise e, fs', out) =>
          (Raise (main_handled e).2, fs', Spawn probe_cmd 10 :: out ++ (main_handled e).1)
      end
  end.

(** An exception of one of the classes the program or the system
    raises on their own account: not [SystemExit]. *)
Definition ordinary (e : exn) : Prop := isinstance e [Exception; KeyboardInterrupt] = true.

(** The worlds in which a child process that does not end raises an
    exception or the interrupt of the operator. *)
Definition raises_ordinary (w : World) : Prop :=
  forall cmd timeout e, subprocess_run w cmd timeout = Raise e -> ordinary e.

(** The run succeeds in full: the check returns [True], discovery
    returns files, the directory of the output is made and the merge
    returns [True]. *)
Definition full_success (w : World) (args : Args) (fs : filesystem) : Prop :=
  let output_path := resolve_output_path (output args) in
  (check_ffmpeg w fs).1.1 = Ret true
  /\ exists m4a_files u fs',
       (find_m4a_files (input args) fs).1.1 = Ret m4a_files
       /\ Path_mkdir (parent output_path) true true fs = (Ret u, fs')
       /\ (merge_m4a_files w m4a_files output_path fs').1.1 = Ret true.

(** ** Example worlds *)

Definition finished (code : Z) (err : string) : CompletedProcess :=
  {| returncode := code; stdout := ""; stderr := err |}.

(** The working directory is /home/u, nothing is a link, and every
    child process ends with the code 0. *)
Definition world_ok : World :=
  {| resolve := fun p => joinpath (PathOf "/home/u") p;
     temp_dir := "/tmp/tmpab12cd";
     subprocess_run := fun _ _ => Ret (finished 0 "") |}.

(** The probe ends with the code 0 and the merge ends as [r]. *)
Definition world_with (r : res CompletedProcess) : World :=
  {| resolve := fun p => joinpath (PathOf "/home/u") p;
     temp_dir := "/tmp/tmpab12cd";
     subprocess_run := fun _ timeout => if timeout =? 10 then Ret (finished 0 "") else r |}.

(** ffmpeg is on the search path and may not be executed. *)
Definition world_not_executable : World :=
  {| resolve := fun p => joinpath (PathOf "/home/u") p;
     temp_dir := "/tmp/tmpab12cd";
     subprocess_run := fun _ _ =>
       Raise (Error PermissionError "[Errno 13] Permission denied: 'ffmpeg'") |}.

(** The operator interrupts the run while a child process runs. *)
Definition world_probe_interrupted : World :=
  {| resolve := fun p => joinpath (PathOf "/home/u") p;
     temp_dir := "/tmp/tmpab12cd";
     subprocess_run := fun _ _ => Raise (Error KeyboardInterrupt "") |}.

(** ffmpeg is not installed. *)
Definition world_missing : World :=
  {| resolve := fun p => joinpath (PathOf "/home/u") p;
     temp_dir := "/tmp/tmpab12cd";
     subprocess_run := fun _ _ =>
       Raise (Error FileNotFoundError "[Errno 2] No such file or directory: 'ffmpeg'") |}.

(** The working directory holds the directory music with three
    audio files and a text file, the directory docs without audio
    files and the file readme.txt. *)
Definition fs_music : filesystem :=
  <[("", []) := Dir ["music"; "docs"; "readme.txt"]]>
  (<[("", ["music"]) := Dir ["a10.m4a"; "a1.m4a"; "notes.txt"; "a2.m4a"]]>
  (<[("", ["music"; "a10.m4a"]) := File]>
  (<[("", ["music"; "a1.m4a"]) := File]>
  (<[("", ["music"; "notes.txt"]) := File]>
  (<[("", ["music"; "a2.m4a"]) := File]>
  (<[("", ["docs"]) := Dir ["notes.txt"; "track.mp3"]]>
  (<[("", ["docs"; "notes.txt"]) := File]>
  (<[("", ["docs"; "track.mp3"]) := File]>
  (<[("", ["readme.txt"]) := File]> ∅))))))))).

(** U+00B2, superscript two. *)
Definition superscript_two : string := String (ascii_of_nat 178) "".

(** A directory with a file whose name starts with a superscript. *)
Definition fs_superscript : filesystem :=
  <[("", []) := Dir ["music"]]>
  (<[("", ["music"]) := Dir ["a1.m4a"; superscript_two +:+ "1.m4a"]]>
  (<[("", ["music"; "a1.m4a"]) := File]>
  (<[("", ["music"; superscript_two +:+ "1.m4a"]) := File]> ∅))).

Definition four_names : list Path := map PathOf ["a1.ext"; "a2.ext"; "a10.ext"; "a20.ext"].

Definition args_music : Args :=
  {| input := "music"; output := "out.m4a"; verbose := false |}.

(** ** Notions used to state further properties *)

(** An [int] entry is not negative. *)
Definition nonneg_item (x : key_item) : Prop :=
  match x with
  | KInt n => 0 <= n
  | KStr _ => True
  end.

(** The paths read back from a manifest, line by line. *)
Definition read_manifest (content : string) : list (option string) :=
  map (fun l => quoted_path (l +:+ LF)) (text_lines content).

(** The events of a run that spawn a child process. *)
Definition spawns (events : list event) : list event :=
  List.filter (fun ev => match ev with Spawn _ _ => true | _ => false end) events.

(** The events of a run that write a file. *)
Definition writes (events : list event) : list event :=
  List.filter (fun ev => match ev with WriteFile _ _ => true | _ => false end) events.

(** The probe ends with the code [code]. *)
Definition world_probe (code : Z) : World :=
  {| resolve := fun p => joinpath (PathOf "/home/u") p;
     temp_dir := "/tmp/tmpab12cd";
     subprocess_run := fun _ _ => Ret (finished code "") |}.

(** The file system [fs_music] with the directory music scanned in
    another order. *)
Definition fs_music_rescanned : filesystem :=
  <[("", ["music"]) := Dir ["a1.m4a"; "a10.m4a"; "notes.txt"; "a2.m4a"]]> fs_music.

(** ** Facts about strings *)

Lemma append_nil (b : string) : "" +:+ b = b.
Proof. reflexivity. Qed.

Lemma append_cons (c : ascii) (a b : string) : String c a +:+ b = String c (a +:+ b).
Proof. reflexivity. Qed.

Lemma list_ascii_app (a b : string) :
  list_ascii_of_string (a +:+ b) = list_ascii_of_string a ++ list_ascii_of_string b.
Proof.
  induction a as [|c a IH]; [reflexivity|].
  rewrite append_cons. simpl. now rewrite IH.
Qed.

Lemma append_empty_r (a : string) : a +:+ "" = a.
Proof.
  induction a as [|c a IH]; [reflexivity|].
  now rewrite append_cons, IH.
Qed.

Lemma append_assoc (a b c : string) : (a +:+ b) +:+ c = a +:+ (b +:+ c).
Proof.
  induction a as [|x a IH]; [reflexivity|].
  now rewrite !append_cons, IH.
Qed.


Lemma all_digits_app (a b : string) :
  all_digits (a +:+ b) = all_digits a && all_digits b.
Proof. unfold all_digits. now rewrite list_ascii_app, forallb_app. Qed.

Lemma no_digit_app (a b : string) :
  no_digit (a +:+ b) = no_digit a && no_digit b.
Proof. unfold no_digit. now rewrite list_ascii_app, forallb_app. Qed.

(** ** The split into runs *)

Lemma re_split_from_nonempty (text : string) :
  forall run digits, re_split_from run digits text <> [].
Proof.
  induction text as [|c rest IH]; intros run digits; simpl.
  - destruct digits; discriminate.
  - destruct (Bool.eqb (re_digit c) digits); [apply IH | discriminate].
Qed.

Lemma re_split_from_alternating (text : string) :
  forall run digits,
    run_ok digits run = true ->
    alternating digits (re_split_from run digits text) = true.
Proof.
  induction text as [|c rest IH]; intros run digits Hrun.
  - destruct digits; simpl in *.
    + now rewrite Hrun.
    + exact Hrun.
  - simpl. destruct (Bool.eqb (re_digit c) digits) eqn:Hc.
    + apply IH. apply Bool.eqb_prop in Hc. subst digits.
      unfold run_ok in *. destruct (re_digit c) eqn:Hd.
      * apply andb_true_iff in Hrun as [_ Hall].
        rewrite all_digits_app, Hall. simpl.
        apply andb_true_iff; split.
        -- destruct run; reflexivity.
        -- unfold all_digits; simpl. now rewrite Hd.
      * rewrite no_digit_app, Hrun. unfold no_digit; simpl. now rewrite Hd.
    + apply Bool.eqb_false_iff in Hc.
      assert (Hnext : run_ok (negb digits) (String c "") = true).
      { unfold run_ok, all_digits, no_digit.
        destruct digits, (re_digit c) eqn:Hd; simpl; try rewrite Hd; try reflexivity;
          exfalso; apply Hc; reflexivity. }
      specialize (IH (String c "") (negb digits) Hnext).
      change (alternating digits (run :: re_split_from (String c "") (negb digits) rest) = true).
      destruct (re_split_from (String c "") (negb digits) rest) as [|r l] eqn:Hl.
      * simpl in IH. discriminate.
      * change (run_ok digits run && alternating (negb digits) (r :: l) = true).
        now rewrite Hrun, IH.
Qed.

Lemma re_split_from_concat (text : string) :
  forall run digits,
    str_join "" (re_split_from run digits text) = run +:+ text.
Proof.
  induction text as [|c rest IH]; intros run digits.
  - destruct digits; simpl; now rewrite ?append_empty_r.
  - simpl. destruct (Bool.eqb (re_digit c) digits).
    + rewrite IH. now rewrite append_assoc.
    + change (str_join "" (run :: re_split_from (String c "") (negb digits) rest)
              = run +:+ String c rest).
      destruct (re_split_from (String c "") (negb digits) rest) as [|r l] eqn:Hl.
      * now apply re_split_from_nonempty in Hl.
      * change (run +:+ "" +:+ str_join "" (r :: l) = run +:+ String c rest).
        rewrite <- Hl, IH. reflexivity.
Qed.

(** ** The shape of a key *)

Lemma re_digit_isdigit_char (c : ascii) : re_digit c = true -> isdigit_char c = true.
Proof. unfold isdigit_char. now intros ->. Qed.

Lemma key_entry_digit_run (r : string) :
  run_ok true r = true -> key_entry r = Ret (KInt (decimal_value r)).
Proof.
  unfold run_ok, key_entry, isdigit, int, all_digits.
  intros H. apply andb_true_iff in H as [Hne Hall].
  rewrite Hne, Hall. simpl.
  replace (forallb isdigit_char (list_ascii_of_string r)) with true; [reflexivity|].
  symmetry. apply forallb_forall. intros c Hc.
  apply re_digit_isdigit_char. revert c Hc. now apply forallb_forall.
Qed.

Lemma key_entry_other_run (r : string) :
  no_digit r = true ->
  key_entry r = Ret (KStr r) \/ exists e, key_entry r = Raise e.
Proof.
  unfold key_entry. intros Hno.
  destruct (isdigit r) eqn:Hd; [right | now left].
  unfold int. destruct r as [|c r]; [discriminate|].
  unfold no_digit in Hno. simpl in Hno.
  apply andb_true_iff in Hno as [Hc _]. apply negb_true_iff in Hc.
  simpl. rewrite Hc. simpl. eauto.
Qed.

Lemma rmap_key_entry_alternates (runs : list string) :
  forall digits k,
    alternating digits runs = true ->
    rmap key_entry runs = Ret k ->
    alternates digits k = true.
Proof.
  induction runs as [|r runs IH]; intros digits k Halt Hk; [discriminate|].
  assert (Hr : run_ok digits r = true
               /\ (runs = [] \/ alternating (negb digits) runs = true)).
  { destruct runs as [|r' runs'].
    - simpl in Halt. apply andb_true_iff in Halt as [Hd Hno].
      apply negb_true_iff in Hd. subst digits. split; [exact Hno | now left].
    - change (run_ok digits r && alternating (negb digits) (r' :: runs') = true) in Halt.
      apply andb_true_iff in Halt as [H1 H2]. split; [exact H1 | now right]. }
  destruct Hr as [Hr Hrest]. simpl in Hk.
  assert (Hhead : exists x, key_entry r = Ret x
                            /\ match x with KInt _ => digits | KStr _ => negb digits end = true).
  { destruct digits.
    - rewrite (key_entry_digit_run r Hr). eauto.
    - destruct (key_entry_other_run r Hr) as [H | [e H]]; rewrite H in *; [eauto | discriminate]. }
  destruct Hhead as (x & Hx & Hkind). rewrite Hx in Hk. simpl in Hk.
  destruct (rmap key_entry runs) as [k'|e] eqn:Hk'; [|discriminate].
  simpl in Hk. injection Hk as <-.
  assert (Htail : alternates (negb digits) k' = true).
  { destruct Hrest as [-> | Hrest].
    - simpl in Hk'. now injection Hk' as <-.
    - now apply (IH (negb digits)). }
  destruct x; simpl; apply andb_true_iff; split; assumption.
Qed.

(** Whatever the text, a key that is returned starts with a [str] and
    its entries alternate. *)
Lemma natural_sort_key_alternates (text : Path + string) (k : key) :
  natural_sort_key text = Ret k -> alternates false k = true.
Proof.
  unfold natural_sort_key, re_split_digits.
  apply rmap_key_entry_alternates.
  now apply re_split_from_alternating.
Qed.

(** ** The order on keys *)

Lemma string_compare_refl (s : string) : String.compare s s = Eq.
Proof.
  induction s as [|a s IH]; simpl; [reflexivity|].
  unfold Ascii.compare. now rewrite N.compare_refl.
Qed.

Lemma string_compare_trans (s : string) :
  forall t u c, String.compare s t = c -> String.compare t u = c -> String.compare s u = c.
Proof.
  induction s as [|a s IH]; intros [|b t] [|d u] c; simpl; try congruence.
  unfold Ascii.compare.
  destruct (N.compare_spec (N_of_ascii a) (N_of_ascii b)) as [Hab|Hab|Hab];
    destruct (N.compare_spec (N_of_ascii b) (N_of_ascii d)) as [Hbd|Hbd|Hbd];
    destruct (N.compare_spec (N_of_ascii a) (N_of_ascii d)) as [Had|Had|Had];
    try lia; try congruence; try (intros; subst; eauto; fail).
Qed.

Lemma item_compare_eq (x y : key_item) : item_compare x y = Eq <-> x = y.
Proof.
  destruct x, y; simpl; split; try discriminate.
  - intros H. apply Z.compare_eq_iff in H. now subst.
  - intros [= ->]. apply Z.compare_refl.
  - intros H. apply String.compare_eq_iff in H. now subst.
  - intros [= ->]. apply string_compare_refl.
Qed.

Lemma item_compare_antisym (x y : key_item) :
  item_compare y x = CompOpp (item_compare x y).
Proof.
  destruct x, y; simpl; try reflexivity.
  - apply Z.compare_antisym.
  - apply String.compare_antisym.
Qed.

Lemma item_compare_trans (x y z : key_item) (c : comparison) :
  item_compare x y = c -> item_compare y z = c -> item_compare x z = c.
Proof.
  destruct x, y, z; simpl; try congruence.
  - destruct c; intros H1 H2.
    + apply Z.compare_eq_iff in H1, H2. subst. apply Z.compare_refl.
    + rewrite Z.compare_lt_iff in *. lia.
    + rewrite Z.compare_gt_iff in *. lia.
  - apply string_compare_trans.
Qed.

Lemma key_compare_eq (a : key) : forall b, key_compare a b = Eq <-> a = b.
Proof.
  induction a as [|x a IH]; intros [|y b]; simpl; split; try discriminate; try reflexivity.
  - destruct (item_compare x y) eqn:Hxy; try discriminate.
    intros H. apply item_compare_eq in Hxy. apply IH in H. now subst.
  - intros [= -> ->]. rewrite (proj2 (item_compare_eq y y) eq_refl). now apply IH.
Qed.

Lemma key_compare_antisym (a : key) :
  forall b, key_compare b a = CompOpp (key_compare a b).
Proof.
  induction a as [|x a IH]; intros [|y b]; simpl; try reflexivity.
  rewrite (item_compare_antisym x y).
  destruct (item_compare x y); simpl; [apply IH | reflexivity | reflexivity].
Qed.

Lemma key_compare_trans (a : key) :
  forall b d c, key_compare a b = c -> key_compare b d = c -> key_compare a d = c.
Proof.
  induction a as [|x a IH]; intros [|y b] [|z d] c; simpl; try congruence.
  destruct (item_compare x y) eqn:Hxy, (item_compare y z) eqn:Hyz; intros H1 H2;
    try congruence.
  - rewrite (item_compare_trans _ _ _ _ Hxy Hyz). eauto.
  - apply item_compare_eq in Hxy. subst y. now rewrite Hyz.
  - apply item_compare_eq in Hxy. subst y. now rewrite Hyz.
  - apply item_compare_eq in Hyz. subst z. now rewrite Hxy.
  - now rewrite (item_compare_trans _ _ _ _ Hxy Hyz).
  - apply item_compare_eq in Hyz. subst z. now rewrite Hxy.
  - now rewrite (item_compare_trans _ _ _ _ Hxy Hyz).
Qed.

Lemma key_le_trans (a b c : key) : key_le a b -> key_le b c -> key_le a c.
Proof.
  unfold key_le. intros Hab Hbc Hac.
  destruct (key_compare a b) eqn:H1; [| |easy].
  - apply key_compare_eq in H1. now subst.
  - destruct (key_compare b c) eqn:H2; [| |easy].
    + apply key_compare_eq in H2. subst. congruence.
    + rewrite (key_compare_trans _ _ _ _ H1 H2) in Hac. discriminate.
Qed.

Lemma key_le_total (a b : key) : key_le a b \/ key_le b a.
Proof.
  unfold key_le. rewrite (key_compare_antisym a b).
  destruct (key_compare a b); simpl; [left | left | right]; discriminate.
Qed.

(** On keys that alternate alike, [<] never meets an [int] and a
    [str]: it returns, and what it returns is the order above. *)
Lemma list_lt_alternates (a : key) :
  forall b ints,
    alternates ints a = true -> alternates ints b = true ->
    list_lt a b = Ret (key_ltb a b).
Proof.
  induction a as [|x a IH]; intros [|y b] ints Ha Hb; try reflexivity.
  unfold key_ltb in *. simpl.
  destruct x as [m|s], y as [n|t]; simpl in *;
      try (destruct ints; discriminate).
  - apply andb_true_iff in Ha as [_ Ha]. apply andb_true_iff in Hb as [_ Hb].
      destruct (Z.eqb_spec m n) as [->|Hne].
      * rewrite Z.compare_refl. now apply (IH b (negb ints)).
      * unfold Z.ltb. destruct (m ?= n) eqn:Hc; try reflexivity.
        apply Z.compare_eq_iff in Hc. contradiction.
  - apply andb_true_iff in Ha as [_ Ha]. apply andb_true_iff in Hb as [_ Hb].
      destruct (String.eqb_spec s t) as [->|Hne].
      * rewrite string_compare_refl. now apply (IH b (negb ints)).
      * unfold String.ltb. destruct (String.compare s t) eqn:Hc; try reflexivity.
        apply String.compare_eq_iff in Hc. contradiction.
Qed.

(** ** The sort *)

Section Sorting.
Context {A : Type}.
Implicit Types (x y : key * A) (l todo sorted : list (key * A)).

Lemma insert_by_ok x sorted :
  dec_ok x -> Forall dec_ok sorted -> Forall dec_ok (insert_by x sorted).
Proof.
  intros Hx Hs. induction Hs as [|y rest Hy Hrest IH]; simpl.
  - now constructor.
  - destruct (key_ltb (fst x) (fst y)); repeat constructor; assumption.
Qed.

Lemma insert_sorted_pure x sorted :
  dec_ok x -> Forall dec_ok sorted ->
  insert_sorted x sorted = Ret (insert_by x sorted).
Proof.
  intros Hx Hs. induction Hs as [|y rest Hy Hrest IH]; simpl; [reflexivity|].
  rewrite (list_lt_alternates (fst x) (fst y) false Hx Hy). simpl.
  destruct (key_ltb (fst x) (fst y)); [reflexivity|].
  now rewrite IH.
Qed.

Lemma sort_decorated_pure todo :
  forall sorted,
    Forall dec_ok todo -> Forall dec_ok sorted ->
    sort_decorated todo sorted = Ret (sort_by todo sorted).
Proof.
  induction todo as [|x todo IH]; intros sorted Ht Hs; simpl; [reflexivity|].
  inversion Ht as [|? ? Hx Ht']; subst.
  rewrite (insert_sorted_pure x sorted Hx Hs). simpl.
  apply IH; [assumption | now apply insert_by_ok].
Qed.

Lemma insert_by_perm x sorted : Permutation (insert_by x sorted) (x :: sorted).
Proof.
  induction sorted as [|y rest IH]; simpl; [reflexivity|].
  destruct (key_ltb (fst x) (fst y)); [reflexivity|].
  rewrite IH. apply perm_swap.
Qed.

Lemma sort_by_perm todo : forall sorted, Permutation (sort_by todo sorted) (sorted ++ todo).
Proof.
  induction todo as [|x todo IH]; intros sorted; simpl.
  - now rewrite app_nil_r.
  - rewrite IH, insert_by_perm. simpl. apply Permutation_middle.
Qed.

Lemma insert_by_sorted x sorted :
  StronglySorted dec_le sorted -> StronglySorted dec_le (insert_by x sorted).
Proof.
  intros Hs. induction Hs as [|y rest Hrest IH Hy]; simpl.
  - repeat constructor.
  - unfold key_ltb. destruct (key_compare (fst x) (fst y)) eqn:Hc.
    + constructor; [exact IH|].
      rewrite insert_by_perm.
      constructor; [|exact Hy].
      unfold dec_le, key_le. rewrite (key_compare_antisym (fst x) (fst y)), Hc. discriminate.
    + constructor; [now constructor|].
      assert (Hxy : dec_le x y) by (unfold dec_le, key_le; rewrite Hc; discriminate).
      constructor; [exact Hxy|].
      eapply Forall_impl; [exact Hy|].
      intros z Hz. exact (key_le_trans _ _ _ Hxy Hz).
    + constructor; [exact IH|].
      rewrite insert_by_perm.
      constructor; [|exact Hy].
      unfold dec_le, key_le. rewrite (key_compare_antisym (fst x) (fst y)), Hc. discriminate.
Qed.

Lemma sort_by_sorted todo :
  forall sorted, StronglySorted dec_le sorted -> StronglySorted dec_le (sort_by todo sorted).
Proof.
  induction todo as [|x todo IH]; intros sorted Hs; simpl; [exact Hs|].
  apply IH. now apply insert_by_sorted.
Qed.

(** An entry goes after the entries of the same key. *)
Lemma insert_by_stable (k : key) x sorted :
  StronglySorted dec_le sorted ->
  List.filter (fun y => key_eqb (fst y) k) (insert_by x sorted)
  = List.filter (fun y => key_eqb (fst y) k) sorted
    ++ List.filter (fun y => key_eqb (fst y) k) [x].
Proof.
  intros Hs. induction Hs as [|y rest Hrest IH Hy]; [reflexivity|].
  cbn [insert_by]. unfold key_ltb.
  destruct (key_compare (fst x) (fst y)) eqn:Hc.
  - cbn [List.filter]. rewrite IH. cbn [List.filter].
    destruct (key_eqb (fst y) k); reflexivity.
  - cbn [List.filter].
    destruct (key_eqb (fst x) k) eqn:Hxk.
    + unfold key_eqb in Hxk.
      destruct (key_compare (fst x) k) eqn:Hxk'; try discriminate.
      apply key_compare_eq in Hxk'. subst k.
      assert (Hnone : List.filter (fun y0 => key_eqb (fst y0) (fst x)) (y :: rest) = []).
      { assert (Hall : Forall (fun z => key_eqb (fst z) (fst x) = false) (y :: rest)).
        { constructor.
          - unfold key_eqb. rewrite (key_compare_antisym (fst x) (fst y)), Hc. reflexivity.
          - eapply Forall_impl; [exact Hy|]. intros z Hz.
            unfold key_eqb. destruct (key_compare (fst z) (fst x)) eqn:Hzx; try reflexivity.
            apply key_compare_eq in Hzx. unfold dec_le, key_le in Hz.
            rewrite Hzx in Hz.
            rewrite (key_compare_antisym (fst x) (fst y)), Hc in Hz. now elim Hz. }
        clear -Hall. induction Hall as [|z l Hz _ IHl]; [reflexivity|].
        cbn [List.filter]. now rewrite Hz. }
      cbn [List.filter] in Hnone. rewrite Hnone. reflexivity.
    + now rewrite app_nil_r.
  - cbn [List.filter]. rewrite IH. cbn [List.filter].
    destruct (key_eqb (fst y) k); reflexivity.
Qed.

Lemma sort_by_stable (k : key) todo :
  forall sorted,
    StronglySorted dec_le sorted ->
    List.filter (fun y => key_eqb (fst y) k) (sort_by todo sorted)
    = List.filter (fun y => key_eqb (fst y) k) sorted
      ++ List.filter (fun y => key_eqb (fst y) k) todo.
Proof.
  induction todo as [|x todo IH]; intros sorted Hs; simpl.
  - now rewrite app_nil_r.
  - rewrite IH by now apply insert_by_sorted.
    rewrite insert_by_stable by assumption.
    rewrite <- app_assoc. cbn [List.filter].
    destruct (key_eqb (fst x) k); reflexivity.
Qed.
End Sorting.

(** ** The sort over paths *)

Lemma has_key_path_key (p : Path) :
  has_key p -> natural_sort_key (inl p) = Ret (path_key p).
Proof. intros [k Hk]. unfold path_key. now rewrite Hk. Qed.

Lemma decorate_keys (l : list Path) :
  Forall has_key l ->
  rmap (fun p => rbind (natural_sort_key (inl p)) (fun k => Ret (k, p))) l
  = Ret (map decorate l).
Proof.
  induction 1 as [|p l Hp Hl IH]; simpl; [reflexivity|].
  now rewrite (has_key_path_key p Hp), IH.
Qed.

Lemma decorate_ok (l : list Path) :
  Forall has_key l -> Forall dec_ok (map decorate l).
Proof.
  induction 1 as [|p l Hp Hl IH]; simpl; constructor; [|exact IH].
  unfold dec_ok. simpl.
  apply (natural_sort_key_alternates (inl p)). now apply has_key_path_key.
Qed.

Lemma filter_tagged (k : key) (s : list (key * Path)) :
  Forall tagged s ->
  List.filter (fun p => key_eqb (path_key p) k) (map snd s)
  = map snd (List.filter (fun y => key_eqb (fst y) k) s).
Proof.
  induction 1 as [|y s Hy Hs IH]; [reflexivity|].
  cbn [map List.filter]. rewrite <- Hy, IH.
  destruct (key_eqb (fst y) k); reflexivity.
Qed.

Lemma sorted_tagged (s : list (key * Path)) :
  Forall tagged s ->
  StronglySorted dec_le s ->
  StronglySorted (fun p q => key_le (path_key p) (path_key q)) (map snd s).
Proof.
  intros Ht Hs. induction Hs as [|y s Hs IH Hy]; simpl; constructor.
  - apply IH. now inversion Ht.
  - inversion Ht as [|? ? Hty Hts]; subst.
    apply Forall_map. rewrite Forall_forall in *.
    intros z Hz. simpl. unfold tagged in *.
    rewrite <- Hty, <- (Hts z Hz). exact (Hy z Hz).
Qed.

(** When every name has a key the sort returns: the result holds the
    same paths, in the order of their keys, and paths of equal keys
    keep their order. *)
Lemma sort_by_key_sorts (l : list Path) :
  Forall has_key l ->
  exists l',
    sort_by_key l = Ret l'
    /\ Permutation l l'
    /\ StronglySorted (fun p q => key_le (path_key p) (path_key q)) l'
    /\ forall k, List.filter (fun p => key_eqb (path_key p) k) l'
                 = List.filter (fun p => key_eqb (path_key p) k) l.
Proof.
  intros Hl. exists (map snd (sort_by (map decorate l) [])).
  assert (Hperm : Permutation (sort_by (map decorate l) []) (map decorate l))
    by apply (sort_by_perm (map decorate l) []).
  assert (Htag0 : Forall tagged (map decorate l)).
  { apply Forall_map. apply Forall_forall. intros p _. reflexivity. }
  assert (Htag : Forall tagged (sort_by (map decorate l) [])) by now rewrite Hperm.
  assert (Hsnd : map snd (map decorate l) = l).
  { rewrite map_map. simpl. apply map_id. }
  split; [|split; [|split]].
  - unfold sort_by_key. rewrite (decorate_keys l Hl). simpl.
    rewrite (sort_decorated_pure (map decorate l) []); [reflexivity| |constructor].
    now apply decorate_ok.
  - rewrite <- Hsnd at 1. apply Permutation_map. now symmetry.
  - apply sorted_tagged; [exact Htag|]. apply sort_by_sorted. constructor.
  - intros k. rewrite (filter_tagged k _ Htag).
    rewrite (sort_by_stable k (map decorate l) []) by constructor.
    simpl. rewrite <- (filter_tagged k _ Htag0). now rewrite Hsnd.
Qed.

(** When a name has no key the sort raises. *)
Lemma sort_by_key_raises (l : list Path) :
  ~ Forall has_key l -> exists e, sort_by_key l = Raise e.
Proof.
  intros Hn. unfold sort_by_key.
  destruct (rmap (fun p => rbind (natural_sort_key (inl p)) (fun k => Ret (k, p))) l)
    as [d|e] eqn:Hd; [|simpl; eauto].
  exfalso. apply Hn. clear Hn. revert d Hd.
  induction l as [|p l IH]; intros d Hd; [constructor|].
  simpl in Hd. destruct (natural_sort_key (inl p)) as [k|e] eqn:Hk; [|discriminate].
  simpl in Hd.
  destruct (rmap (fun p => rbind (natural_sort_key (inl p)) (fun k => Ret (k, p))) l)
    as [d'|e] eqn:Hd'; [|discriminate].
  constructor; [now exists k | now apply (IH d')].
Qed.

(** ** Digit runs are compared by magnitude *)

Lemma re_split_from_same_kind (q : string) :
  forall run digits rest,
    forallb (fun c => Bool.eqb (re_digit c) digits) (list_ascii_of_string q) = true ->
    re_split_from run digits (q +:+ rest) = re_split_from (run +:+ q) digits rest.
Proof.
  induction q as [|c q IH]; intros run digits rest Hq.
  - now rewrite append_nil, append_empty_r.
  - simpl in Hq. apply andb_true_iff in Hq as [Hc Hq].
    rewrite append_cons. simpl. rewrite Hc.
    rewrite (IH _ _ _ Hq). rewrite append_assoc. reflexivity.
Qed.

Lemma no_digit_same_kind (p : string) :
  no_digit p = true ->
  forallb (fun c => Bool.eqb (re_digit c) false) (list_ascii_of_string p) = true.
Proof.
  unfold no_digit. intros H. rewrite forallb_forall in *.
  intros c Hc. specialize (H c Hc). now destruct (re_digit c).
Qed.

Lemma all_digits_same_kind (d : string) :
  all_digits d = true ->
  forallb (fun c => Bool.eqb (re_digit c) true) (list_ascii_of_string d) = true.
Proof.
  unfold all_digits. intros H. rewrite forallb_forall in *.
  intros c Hc. specialize (H c Hc). now destruct (re_digit c).
Qed.

(** A name made of a prefix without digits, a digit run and a rest
    that does not go on with a digit splits into the prefix, the run
    and the runs of the rest. *)
Lemma re_split_digits_prefix_run (p d s : string) :
  no_digit p = true -> run_ok true d = true -> starts_other s = true ->
  re_split_digits (p +:+ d +:+ s) = p :: d :: re_split_digits s.
Proof.
  intros Hp Hd Hs. unfold re_split_digits.
  rewrite (re_split_from_same_kind p "" false _ (no_digit_same_kind p Hp)).
  rewrite append_nil.
  unfold run_ok in Hd. apply andb_true_iff in Hd as [Hne Hall].
  destruct d as [|c d]; [discriminate|].
  pose proof Hall as Hall'. unfold all_digits in Hall'. simpl in Hall'.
  apply andb_true_iff in Hall' as [Hc Hrest].
  rewrite append_cons. simpl. rewrite Hc. simpl. f_equal.
  rewrite (re_split_from_same_kind d (String c "") true s).
  2:{ now apply all_digits_same_kind. }
  rewrite append_cons, append_nil.
  destruct s as [|c' s]; [reflexivity|].
  simpl in Hs. apply negb_true_iff in Hs. simpl. rewrite Hs. reflexivity.
Qed.

Lemma natural_sort_key_prefix_run (p d s : string) (k : key) :
  no_digit p = true -> run_ok true d = true -> starts_other s = true ->
  natural_sort_key (inr (p +:+ d +:+ s)) = Ret k ->
  exists ks, k = KStr p :: KInt (decimal_value d) :: ks.
Proof.
  intros Hp Hd Hs. unfold natural_sort_key.
  rewrite (re_split_digits_prefix_run p d s Hp Hd Hs). simpl.
  destruct (key_entry_other_run p Hp) as [H | [e H]]; rewrite H; [|discriminate].
  rewrite (key_entry_digit_run d Hd). simpl.
  destruct (rmap key_entry (re_split_digits s)) as [ks|e]; [|discriminate].
  simpl. intros [= <-]. eauto.
Qed.

(** Two names that share the prefix and differ in the digit run that
    follows are ordered by the values of the runs. *)
Lemma digit_runs_by_magnitude (p d1 d2 s1 s2 : string) (k1 k2 : key) :
  no_digit p = true ->
  run_ok true d1 = true -> run_ok true d2 = true ->
  starts_other s1 = true -> starts_other s2 = true ->
  natural_sort_key (inr (p +:+ d1 +:+ s1)) = Ret k1 ->
  natural_sort_key (inr (p +:+ d2 +:+ s2)) = Ret k2 ->
  decimal_value d1 < decimal_value d2 ->
  list_lt k1 k2 = Ret true /\ list_lt k2 k1 = Ret false.
Proof.
  intros Hp Hd1 Hd2 Hs1 Hs2 Hk1 Hk2 Hlt.
  destruct (natural_sort_key_prefix_run p d1 s1 k1 Hp Hd1 Hs1 Hk1) as [ks1 ->].
  destruct (natural_sort_key_prefix_run p d2 s2 k2 Hp Hd2 Hs2 Hk2) as [ks2 ->].
  simpl. rewrite String.eqb_refl.
  replace (decimal_value d1 =? decimal_value d2) with false by (symmetry; apply Z.eqb_neq; lia).
  replace (decimal_value d2 =? decimal_value d1) with false by (symmetry; apply Z.eqb_neq; lia).
  split; f_equal; [apply Z.ltb_lt | apply Z.ltb_ge]; lia.
Qed.

(** ** C2 *)

(** C2, as stated, fails: "media10.m4a" does not split into the three
    runs "media", "10", ".m4a", because the 4 of the extension is a
    digit run too. *)
Lemma media10_split_is_not_three_runs :
  re_split_digits "media10.m4a" <> ["media"; "10"; ".m4a"].
Proof. vm_compute. discriminate. Qed.

(** C2 (amended): the name is split into alternating runs of other
    characters and of digits, every digit run being a run of its own
    ("media10.m4a" gives "media", "10", ".m", "4", "a"); a digit run
    becomes its value and another run stays as it is; values are
    compared by magnitude and strings as text, so of two names that
    differ in a digit run the one with the smaller value comes first;
    and a1.ext, a2.ext, a10.ext, a20.ext, discovered in any order, are
    sorted into exactly this order. *)
Theorem natural_sort_runs_and_order :
  re_split_digits "media10.m4a" = ["media"; "10"; ".m"; "4"; "a"]
  /\ (forall text,
         alternating false (re_split_digits text) = true
         /\ str_join "" (re_split_digits text) = text)
  /\ (forall r, run_ok true r = true -> key_entry r = Ret (KInt (decimal_value r)))
  /\ (forall r x, no_digit r = true -> key_entry r = Ret x -> x = KStr r)
  /\ (forall m n, item_lt (KInt m) (KInt n) = Ret (m <? n))
  /\ (forall s t, item_lt (KStr s) (KStr t) = Ret (String.ltb s t))
  /\ (forall p d1 d2 s1 s2 k1 k2,
         no_digit p = true ->
         run_ok true d1 = true -> run_ok true d2 = true ->
         starts_other s1 = true -> starts_other s2 = true ->
         natural_sort_key (inr (p +:+ d1 +:+ s1)) = Ret k1 ->
         natural_sort_key (inr (p +:+ d2 +:+ s2)) = Ret k2 ->
         decimal_value d1 < decimal_value d2 ->
         list_lt k1 k2 = Ret true /\ list_lt k2 k1 = Ret false)
  /\ (forall l, Permutation l four_names -> sort_by_key l = Ret four_names).
Proof.
  split; [reflexivity|].
  split.
  { intros text. split.
    - now apply re_split_from_alternating.
    - apply (re_split_from_concat text "" false). }
  split; [exact key_entry_digit_run|].
  split.
  { intros r x Hr Hx. destruct (key_entry_other_run r Hr) as [H | [e H]];
      rewrite H in Hx; [now injection Hx as <- | discriminate]. }
  split; [reflexivity|].
  split; [reflexivity|].
  split; [exact digit_runs_by_magnitude|].
  intros l Hl. symmetry in Hl. apply permutations_Permutation in Hl.
  vm_compute in Hl.
  repeat (apply elem_of_cons in Hl as [-> | Hl]); try (vm_compute; reflexivity).
  now apply elem_of_nil in Hl.
Qed.

Lemma natural_sort_runs_and_order_witness :
  key_entry "10" = Ret (KInt 10)
  /\ (list_lt [KStr "media"; KInt 2; KStr ""] [KStr "media"; KInt 10; KStr ""] = Ret true
      /\ list_lt [KStr "media"; KInt 10; KStr ""] [KStr "media"; KInt 2; KStr ""] = Ret false)
  /\ sort_by_key (map PathOf ["a10.ext"; "a1.ext"; "a2.ext"; "a20.ext"]) = Ret four_names.
Proof.
  destruct natural_sort_runs_and_order as (_ & _ & Hrun & _ & _ & _ & Hmag & Hsort).
  split; [apply (Hrun "10"); reflexivity|].
  split.
  - apply (Hmag "media" "2" "10" "" ""); reflexivity.
  - apply Hsort. unfold four_names. simpl.
    apply (perm_trans (l' := PathOf "a1.ext" :: PathOf "a10.ext"
                                :: PathOf "a2.ext" :: PathOf "a20.ext" :: [])).
    + apply perm_swap.
    + apply perm_skip. apply perm_swap.
Defined.

(** ** C3 *)

(** C3 (the code departs from it): [str.isdigit] holds of the
    superscript two, which [\d] does not match and [int] does not
    read; a name that starts with it and goes on with a digit has no
    key, and the discovery of a directory that holds it raises
    [ValueError] instead of returning the sorted files. *)
Theorem superscript_name_breaks_sort :
  re_split_digits (superscript_two +:+ "1.m4a") = [superscript_two; "1"; ".m"; "4"; "a"]
  /\ isdigit superscript_two = true
  /\ natural_sort_key (inr (superscript_two +:+ "1.m4a"))
     = Raise (Error ValueError
                ("invalid literal for int() with base 10: '" +:+ superscript_two +:+ "'"))
  /\ find_m4a_files "music" fs_superscript
     = (Raise (Error ValueError
                 ("invalid literal for int() with base 10: '" +:+ superscript_two +:+ "'")),
        fs_superscript, []).
Proof. repeat split; vm_compute; reflexivity. Qed.

(** ** C4 *)

Lemma find_m4a_files_missing (directory : string) (fs : filesystem) :
  exists_ fs (PathOf directory) = false ->
  find_m4a_files directory fs
  = (Raise (Error FileNotFoundError ("Directory '" +:+ directory +:+ "' does not exist")),
     fs, []).
Proof. intros H. unfold find_m4a_files, bind, get_fs. rewrite H. reflexivity. Qed.

Lemma find_m4a_files_not_a_directory (directory : string) (fs : filesystem) :
  exists_ fs (PathOf directory) = true ->
  is_dir fs (PathOf directory) = false ->
  find_m4a_files directory fs
  = (Raise (Error NotADirectoryError ("'" +:+ directory +:+ "' is not a directory")),
     fs, []).
Proof. intros H1 H2. unfold find_m4a_files, bind, get_fs. rewrite H1, H2. reflexivity. Qed.

Lemma filter_none {A} (f : A -> bool) (l : list A) :
  Forall (fun x => f x = false) l -> List.filter f l = [].
Proof.
  induction 1 as [|x l Hx _ IH]; [reflexivity|].
  simpl. now rewrite Hx.
Qed.

Lemma find_m4a_files_no_files (directory : string) (fs : filesystem) (entries : list string) :
  node_at fs (PathOf directory) = Some (Dir entries) ->
  Forall (fun n => endswith n ".m4a" = false) entries ->
  find_m4a_files directory fs
  = (Raise (Error ValueError ("No M4A files found in '" +:+ directory +:+ "'")), fs, []).
Proof.
  intros Hn Hall. unfold find_m4a_files, bind, get_fs, exists_, is_dir, glob.
  rewrite Hn. simpl. rewrite (filter_none _ _ Hall). reflexivity.
Qed.

(** C4: discovery on a path that does not exist raises
    [FileNotFoundError], on a path that exists and is not a directory
    [NotADirectoryError], on a directory none of whose entries ends in
    .m4a [ValueError]; the three classes differ and none is a subclass
    of another, so a caller tells them apart. *)
Theorem find_m4a_files_errors (directory : string) (fs : filesystem) :
  (exists_ fs (PathOf directory) = false ->
   find_m4a_files directory fs
   = (Raise (Error FileNotFoundError ("Directory '" +:+ directory +:+ "' does not exist")),
      fs, []))
  /\ (exists_ fs (PathOf directory) = true ->
      is_dir fs (PathOf directory) = false ->
      find_m4a_files directory fs
      = (Raise (Error NotADirectoryError ("'" +:+ directory +:+ "' is not a directory")),
         fs, []))
  /\ (forall entries,
        node_at fs (PathOf directory) = Some (Dir entries) ->
        Forall (fun n => endswith n ".m4a" = false) entries ->
        find_m4a_files directory fs
        = (Raise (Error ValueError ("No M4A files found in '" +:+ directory +:+ "'")),
           fs, []))
  /\ (forall c d,
        In c [FileNotFoundError; NotADirectoryError; ValueError] ->
        In d [FileNotFoundError; NotADirectoryError; ValueError] ->
        issubclass c d = true -> c = d).
Proof.
  split; [apply find_m4a_files_missing|].
  split; [apply find_m4a_files_not_a_directory|].
  split; [apply find_m4a_files_no_files|].
  intros c d Hc Hd. simpl in Hc, Hd.
  destruct Hc as [<-|[<-|[<-|[]]]], Hd as [<-|[<-|[<-|[]]]];
    vm_compute; congruence.
Qed.

Lemma find_m4a_files_errors_witness :
  (find_m4a_files "nowhere" fs_music).1.1
  = Raise (Error FileNotFoundError "Directory 'nowhere' does not exist")
  /\ (find_m4a_files "readme.txt" fs_music).1.1
     = Raise (Error NotADirectoryError "'readme.txt' is not a directory")
  /\ (find_m4a_files "docs" fs_music).1.1
     = Raise (Error ValueError "No M4A files found in 'docs'").
Proof.
  split; [|split].
  - destruct (find_m4a_files_errors "nowhere" fs_music) as (H & _).
    rewrite H; reflexivity.
  - destruct (find_m4a_files_errors "readme.txt" fs_music) as (_ & H & _).
    rewrite H; reflexivity.
  - destruct (find_m4a_files_errors "docs" fs_music) as (_ & _ & H & _).
    rewrite (H ["notes.txt"; "track.mp3"]); [reflexivity | reflexivity | repeat constructor].
Defined.

(** ** Reading a manifest line back *)

Lemma until_quote_no_quote (body rest : string) :
  contains_char quote body = false ->
  until_quote (body +:+ String quote rest) = Some (body, rest).
Proof.
  induction body as [|c body IH]; intros H.
  - reflexivity.
  - unfold contains_char in H. cbn [list_ascii_of_string existsb] in H.
    apply orb_false_iff in H as [Hc H].
    rewrite append_cons. cbn [until_quote]. rewrite Ascii.eqb_sym, Hc.
    now rewrite (IH H).
Qed.

Lemma until_quote_body (s body rest : string) :
  until_quote s = Some (body, rest) -> contains_char quote body = false.
Proof.
  revert body rest. induction s as [|c s IH]; intros body rest; [discriminate|].
  cbn [until_quote]. destruct (Ascii.eqb c quote) eqn:Hc.
  - now intros [= <- _].
  - destruct (until_quote s) as [[b r]|]; [|discriminate].
    intros [= <- _]. unfold contains_char. cbn [list_ascii_of_string existsb].
    rewrite Ascii.eqb_sym, Hc. exact (IH b r eq_refl).
Qed.

Lemma substring_all (s : string) : substring 0 (String.length s) s = s.
Proof.
  induction s as [|c s IH]; [reflexivity|].
  cbn [String.length substring]. now rewrite IH.
Qed.

Lemma prefix_app (a b : string) : String.prefix a (a +:+ b) = true.
Proof.
  induction a as [|c a IH]; [now destruct b|].
  rewrite append_cons. cbn [String.prefix].
  destruct (ascii_dec c c); [exact IH | contradiction].
Qed.

Lemma manifest_line_tail (p : Path) :
  substring 6 (String.length (manifest_line p) - 6) (manifest_line p)
  = str p +:+ String quote LF.
Proof.
  unfold manifest_line. rewrite !append_cons, append_nil.
  cbn [String.length]. rewrite !Nat.sub_succ, Nat.sub_0_r.
  cbn [substring]. rewrite substring_all. reflexivity.
Qed.

(** A path without a quote is read back from its line. *)
Lemma quoted_path_plain (p : Path) :
  contains_char quote (str p) = false ->
  quoted_path (manifest_line p) = Some (str p).
Proof.
  intros H. unfold quoted_path. rewrite manifest_line_tail.
  rewrite (until_quote_no_quote _ _ H).
  unfold manifest_line. rewrite prefix_app, String.eqb_refl. reflexivity.
Qed.

(** A path with a quote is not: the quote is written as it is and
    ends the quoted part. *)
Lemma quoted_path_with_quote (p : Path) :
  contains_char quote (str p) = true ->
  quoted_path (manifest_line p) <> Some (str p).
Proof.
  intros H. unfold quoted_path. rewrite manifest_line_tail.
  destruct (String.prefix "file '" (manifest_line p)); [|discriminate].
  destruct (until_quote (str p +:+ String quote LF)) as [[body rest]|] eqn:Hu;
    [|discriminate].
  destruct (String.eqb rest LF); [|discriminate].
  intros [= ->]. apply until_quote_body in Hu. congruence.
Qed.

(** ** C1 *)

Lemma contains_char_app (c : ascii) (a b : string) :
  contains_char c (a +:+ b) = contains_char c a || contains_char c b.
Proof. unfold contains_char. now rewrite list_ascii_app, existsb_app. Qed.

Lemma split_on_line (sep : ascii) (l : string) :
  forall rest,
    contains_char sep l = false ->
    split_on sep (l +:+ String sep rest) = l :: split_on sep rest.
Proof.
  induction l as [|c l IH]; intros rest Hl.
  - rewrite append_nil. simpl. now rewrite Ascii.eqb_refl.
  - unfold contains_char in Hl. simpl in Hl.
    apply orb_false_iff in Hl as [Hc Hl].
    rewrite append_cons. simpl.
    rewrite Ascii.eqb_sym, Hc. now rewrite (IH rest Hl).
Qed.

Lemma split_on_unlines (ls : list string) :
  Forall (fun l => contains_char "010" l = false) ls ->
  split_on "010" (unlines ls) = ls ++ [""].
Proof.
  induction 1 as [|l ls Hl _ IH]; [reflexivity|].
  simpl. unfold LF. rewrite append_cons, append_nil.
  now rewrite (split_on_line "010" l (unlines ls) Hl), IH.
Qed.

Lemma text_lines_unlines (ls : list string) :
  Forall (fun l => contains_char "010" l = false) ls ->
  text_lines (unlines ls) = ls.
Proof.
  intros H. unfold text_lines. rewrite (split_on_unlines ls H).
  rewrite last_last. simpl. apply removelast_last.
Qed.

(** What the loop of [create_file_list] has written after the files
    of [l], starting from [f]. *)
Lemma written_unlines (w : World) (l : list Path) :
  forall f,
    fold_left (fun f m4a_file => f +:+ manifest_line (resolve w m4a_file)) l f
    = f +:+ unlines (map (fun p => "file '" +:+ str (resolve w p) +:+ "'") l).
Proof.
  induction l as [|p l IH]; intros f; simpl.
  - now rewrite append_empty_r.
  - rewrite IH. unfold manifest_line. now rewrite !append_assoc.
Qed.

(** C1, as stated, fails: one file whose name holds a line feed gives
    a manifest of two lines. *)
Lemma create_file_list_name_with_line_feed :
  let m4a_files := [MkPath "" ["music"; "a" +:+ LF +:+ "b.m4a"]] in
  exists content,
    create_file_list world_ok m4a_files "/tmp/tmpab12cd" fs_music
    = (Ret (PathOf "/tmp/tmpab12cd/filelist.txt"), fs_music,
       [WriteFile (PathOf "/tmp/tmpab12cd/filelist.txt") content])
    /\ length m4a_files = 1%nat
    /\ text_lines content = ["file '/home/u/music/a"; "b.m4a'"].
Proof. eexists. split; [reflexivity|]. split; reflexivity. Qed.

(** C1 (amended): for every list of input files whose resolved paths
    hold neither a line feed nor a single quote, [create_file_list]
    writes one manifest, to filelist.txt in the temporary directory,
    whose lines are, one per file and in the order of the list,
    [file '<resolved path>'], each closed by a line feed and each
    quoting its path. *)
Theorem create_file_list_lines (w : World) (m4a_files : list Path)
    (temp_dir : string) (fs : filesystem) :
  Forall (fun p => contains_char "010" (str (resolve w p)) = false
                   /\ contains_char quote (str (resolve w p)) = false) m4a_files ->
  let lines := map (fun p => "file '" +:+ str (resolve w p) +:+ "'") m4a_files in
  let file_list_path := joinstr (PathOf temp_dir) "filelist.txt" in
  exists content,
    create_file_list w m4a_files temp_dir fs
    = (Ret file_list_path, fs, [WriteFile file_list_path content])
    /\ content = unlines lines
    /\ text_lines content = lines
    /\ length (text_lines content) = length m4a_files
    /\ map (fun l => quoted_path (l +:+ LF)) (text_lines content)
       = map (fun p => Some (str (resolve w p))) m4a_files.
Proof.
  intros Hno lines file_list_path.
  assert (Hlines : Forall (fun l => contains_char "010" l = false) lines).
  { subst lines. apply Forall_map. eapply Forall_impl; [exact Hno|].
    intros p [Hp _]. simpl. rewrite !contains_char_app, Hp. reflexivity. }
  exists (unlines lines). split; [|split; [reflexivity|split; [|split]]].
  - unfold create_file_list. rewrite written_unlines, append_nil. reflexivity.
  - now apply text_lines_unlines.
  - rewrite (text_lines_unlines lines Hlines). subst lines. now rewrite length_map.
  - rewrite (text_lines_unlines lines Hlines). subst lines. rewrite map_map.
    clear Hlines. induction Hno as [|p l [_ Hq] _ IH]; [reflexivity|].
    cbn [map]. rewrite IH. f_equal.
    rewrite !append_assoc. exact (quoted_path_plain (resolve w p) Hq).
Qed.

Lemma create_file_list_lines_witness :
  exists content,
    create_file_list world_ok (map PathOf ["music/a1.m4a"; "music/a2.m4a"]) "/tmp/t" fs_music
    = (Ret (PathOf "/tmp/t/filelist.txt"), fs_music,
       [WriteFile (PathOf "/tmp/t/filelist.txt") content])
    /\ content = unlines ["file '/home/u/music/a1.m4a'"; "file '/home/u/music/a2.m4a'"]
    /\ text_lines content = ["file '/home/u/music/a1.m4a'"; "file '/home/u/music/a2.m4a'"]
    /\ length (text_lines content) = 2%nat
    /\ map (fun l => quoted_path (l +:+ LF)) (text_lines content)
       = [Some "/home/u/music/a1.m4a"; Some "/home/u/music/a2.m4a"].
Proof.
  apply (create_file_list_lines world_ok (map PathOf ["music/a1.m4a"; "music/a2.m4a"])
           "/tmp/t" fs_music).
  repeat constructor.
Defined.

(** ** What discovery returns *)

Lemma sort_by_key_has_key (l l' : list Path) :
  sort_by_key l = Ret l' -> Forall has_key l.
Proof.
  intros H. unfold sort_by_key in H.
  destruct (rmap (fun p => rbind (natural_sort_key (inl p)) (fun k => Ret (k, p))) l)
    as [d|e] eqn:Hd; [|discriminate].
  clear H. revert d Hd.
  induction l as [|p l IH]; intros d Hd; [constructor|].
  simpl in Hd. destruct (natural_sort_key (inl p)) as [k|e] eqn:Hk; [|discriminate].
  simpl in Hd.
  destruct (rmap (fun p => rbind (natural_sort_key (inl p)) (fun k => Ret (k, p))) l)
    as [d'|e] eqn:Hd'; [|discriminate].
  constructor; [now exists k | now apply (IH d')].
Qed.

(** When discovery returns, it has changed and printed nothing, and
    the list it returns is not empty and holds the matching entries of
    the directory, sorted by their keys, those of equal keys in scan
    order. *)
Lemma find_m4a_files_returns (directory : string) (fs fs' : filesystem)
    (m4a_files : list Path) (out : list event) :
  find_m4a_files directory fs = (Ret m4a_files, fs', out) ->
  fs' = fs /\ out = [] /\ m4a_files <> []
  /\ Permutation (glob fs (PathOf directory) ".m4a") m4a_files
  /\ StronglySorted (fun p q => key_le (path_key p) (path_key q)) m4a_files
  /\ forall k, List.filter (fun p => key_eqb (path_key p) k) m4a_files
               = List.filter (fun p => key_eqb (path_key p) k)
                             (glob fs (PathOf directory) ".m4a").
Proof.
  unfold find_m4a_files, bind, get_fs.
  destruct (exists_ fs (PathOf directory)); [|discriminate].
  destruct (is_dir fs (PathOf directory)); [|discriminate].
  simpl.
  destruct (glob fs (PathOf directory) ".m4a") as [|p l] eqn:Hg; [discriminate|].
  unfold lift.
  destruct (sort_by_key (p :: l)) as [l'|e] eqn:Hs; [|discriminate].
  intros [= <- <- <-].
  destruct (sort_by_key_sorts (p :: l) (sort_by_key_has_key _ _ Hs))
    as (l'' & Hs' & Hperm & Hsorted & Hstable).
  rewrite Hs in Hs'. injection Hs' as <-.
  repeat split; try assumption.
  intros ->. apply Permutation_sym, Permutation_nil in Hperm. discriminate.
Qed.

(** ** The output path and its directory *)

Lemma split_on_no_sep (sep : ascii) (s : string) :
  contains_char sep s = false -> split_on sep s = [s].
Proof.
  induction s as [|c s IH]; intros H; [reflexivity|].
  unfold contains_char in H. simpl in H. apply orb_false_iff in H as [Hc Hs].
  simpl. rewrite Ascii.eqb_sym, Hc. now rewrite (IH Hs).
Qed.

(** A bare file name is a path of one component. *)
Lemma PathOf_bare (file : string) :
  file <> "" -> file <> "." -> contains_char "/" file = false ->
  PathOf file = MkPath "" [file].
Proof.
  intros Hne Hdot Hsep. unfold PathOf, splitroot.
  destruct file as [|c file]; [contradiction|].
  assert (Hc : Ascii.eqb c "/" = false).
  { unfold contains_char in Hsep. simpl in Hsep.
    apply orb_false_iff in Hsep as [Hc _]. now rewrite Ascii.eqb_sym. }
  rewrite Hc, (split_on_no_sep "/" _ Hsep).
  apply String.eqb_neq in Hdot. cbn [List.filter].
  rewrite Hdot. reflexivity.
Qed.

(** A bare file name goes under merged. *)
Lemma resolve_output_path_bare (file : string) :
  file <> "" -> file <> "." -> contains_char "/" file = false ->
  resolve_output_path file = MkPath "" ["merged"; file]
  /\ str (resolve_output_path file) = "merged/" +:+ file.
Proof.
  intros Hne Hdot Hsep. unfold resolve_output_path.
  rewrite (PathOf_bare file Hne Hdot Hsep). split; reflexivity.
Qed.

(** A path that pathlib gives a parent other than "." stays as it is;
    so does every path with a root and every path of two components
    or more. *)
Lemma resolve_output_path_with_parent (output : string) :
  root (PathOf output) <> "" \/ (2 <= length (tail (PathOf output)))%nat ->
  resolve_output_path output = PathOf output.
Proof.
  intros H. unfold resolve_output_path, Path_eqb, parent. simpl.
  destruct (PathOf output) as [rt tl]. simpl in *.
  destruct H as [H | H].
  - apply String.eqb_neq in H. now rewrite H.
  - destruct tl as [|a [|b tl]]; simpl in H; try lia.
    rewrite andb_comm. simpl. reflexivity.
Qed.

Lemma Path_eta (p : Path) : MkPath (root p) (tail p) = p.
Proof. now destruct p. Qed.

Lemma mkdir_parents_existing (rt : string) (rtail : list string) (fs : filesystem) :
  is_dir fs (MkPath rt (rev rtail)) = true ->
  mkdir_parents rt rtail true fs = (Ret tt, fs).
Proof.
  intros Hd.
  assert (Hos : exists msg, os_mkdir (MkPath rt (rev rtail)) fs
                            = (Raise (Error FileExistsError msg), fs)).
  { unfold os_mkdir. unfold is_dir in Hd.
    destruct (node_at fs (MkPath rt (rev rtail))); [eauto | discriminate]. }
  destruct Hos as [msg Hos].
  destruct rtail; simpl in *; rewrite Hos; simpl; now rewrite Hd.
Qed.

(** An already-existing directory is not an error, and nothing
    changes. *)
Lemma mkdir_existing (p : Path) (fs : filesystem) :
  is_dir fs p = true -> Path_mkdir p true true fs = (Ret tt, fs).
Proof.
  intros Hd. unfold Path_mkdir. apply mkdir_parents_existing.
  now rewrite rev_involutive, Path_eta.
Qed.

Lemma os_mkdir_made (p : Path) (fs fs' : filesystem) (u : unit) :
  os_mkdir p fs = (Ret u, fs') -> is_dir fs' p = true.
Proof.
  unfold os_mkdir. destruct (node_at fs p); [discriminate|].
  destruct (node_at fs (parent p)) as [[|entries]|]; try discriminate.
  intros [= <- <-]. unfold is_dir, node_at. now rewrite lookup_insert_eq.
Qed.


Lemma mkdir_flat_made (p : Path) (fs fs' : filesystem) (u : unit) :
  mkdir_flat p true fs = (Ret u, fs') -> is_dir fs' p = true.
Proof.
  unfold mkdir_flat. destruct (os_mkdir p fs) as [[u'|e] fs1] eqn:Hos.
  - intros [= _ <-]. now apply (os_mkdir_made p fs fs1 u').
  - destruct (isinstance e [FileNotFoundError]); [discriminate|].
    destruct (isinstance e [OSError]); [|discriminate].
    simpl. destruct (is_dir fs1 p) eqn:Hd; [|discriminate].
    now intros [= _ <-].
Qed.

Lemma mkdir_parents_made (rt : string) (rtail : list string) (fs fs' : filesystem) (u : unit) :
  mkdir_parents rt rtail true fs = (Ret u, fs') ->
  is_dir fs' (MkPath rt (rev rtail)) = true.
Proof.
  destruct rtail as [|n rparent]; cbn [mkdir_parents];
    destruct (os_mkdir _ fs) as [[u'|e] fs1] eqn:Hos.
  - intros [= _ <-]. now apply (os_mkdir_made _ fs fs1 u').
  - destruct (isinstance e [FileNotFoundError]); [discriminate|].
    destruct (isinstance e [OSError]); [|discriminate].
    simpl. destruct (is_dir fs1 _) eqn:Hd; [|discriminate].
    now intros [= _ <-].
  - intros [= _ <-]. now apply (os_mkdir_made _ fs fs1 u').
  - destruct (isinstance e [FileNotFoundError]).
    + destruct (mkdir_parents rt rparent true fs1) as [[u''|e'] fs2]; [|discriminate].
      apply mkdir_flat_made.
    + destruct (isinstance e [OSError]); [|discriminate].
      simpl. destruct (is_dir fs1 _) eqn:Hd; [|discriminate].
      now intros [= _ <-].
Qed.

(** After [p.mkdir(parents=True, exist_ok=True)] has returned, [p] is
    a directory. *)
Lemma mkdir_made (p : Path) (fs fs' : filesystem) (u : unit) :
  Path_mkdir p true true fs = (Ret u, fs') -> is_dir fs' p = true.
Proof.
  unfold Path_mkdir. intros H. apply mkdir_parents_made in H.
  now rewrite rev_involutive, Path_eta in H.
Qed.

(** Making the directory again returns and changes nothing. *)
Lemma mkdir_idempotent (p : Path) (fs fs' : filesystem) (u : unit) :
  Path_mkdir p true true fs = (Ret u, fs') ->
  Path_mkdir p true true fs' = (Ret tt, fs').
Proof. intros H. apply mkdir_existing. now apply (mkdir_made p fs fs' u). Qed.

(** ** C5 *)

(** C5 (the code departs from it): the output path ./out.ext names
    the directory "." and should stay as it is, but pathlib reads it as
    the bare name out.ext, whose parent is ".", so it is rewritten to
    merged/out.ext; the child process is told to write there. *)
Theorem dot_slash_output_goes_under_merged :
  PathOf "./out.ext" = PathOf "out.ext"
  /\ resolve_output_path "./out.ext" = PathOf "merged/out.ext"
  /\ str (resolve_output_path "./out.ext") = "merged/out.ext"
  /\ In (Spawn ["ffmpeg"; "-f"; "concat"; "-safe"; "0"; "-i"; "/tmp/tmpab12cd/filelist.txt";
                "-c"; "copy"; "-y"; "merged/out.ext"] 300)
        (main world_ok {| input := "music"; output := "./out.ext"; verbose := false |}
              fs_music).2.
Proof.
  split; [reflexivity|]. split; [reflexivity|]. split; [reflexivity|].
  vm_compute. tauto.
Qed.

(** ** The child process *)

(** What [check_ffmpeg] does, by the way the probe ends. *)
Lemma check_ffmpeg_spec (w : World) (fs : filesystem) :
  check_ffmpeg w fs
  = (match subprocess_run w probe_cmd 10 with
     | Ret result => Ret (returncode result =? 0)
     | Raise e => if isinstance e [TimeoutExpired; FileNotFoundError]
                  then Ret false else Raise e
     end, fs, [Spawn probe_cmd 10]).
Proof.
  unfold check_ffmpeg, try_except, bind, run, ret.
  fold probe_cmd.
  destruct (subprocess_run w probe_cmd 10) as [result|e]; [reflexivity|].
  cbn [List.find fst snd].
  destruct (isinstance e [TimeoutExpired; FileNotFoundError]); reflexivity.
Qed.

(** What [merge_m4a_files] does, by the way the child process ends. *)
Lemma merge_m4a_files_spec (w : World) (m4a_files : list Path) (output_file : Path)
    (fs : filesystem) :
  merge_m4a_files w m4a_files output_file fs
  = (merge_result (subprocess_run w (merge_cmd w output_file) 300), fs,
     [WriteFile (joinstr (PathOf (temp_dir w)) "filelist.txt") (manifest w m4a_files);
      Print NoMark ("Merging " +:+ pretty (length m4a_files) +:+ " M4A files...");
      Print NoMark ("Output: " +:+ str output_file);
      Spawn (merge_cmd w output_file) 300]
     ++ merge_report (subprocess_run w (merge_cmd w output_file) 300)).
Proof.
  unfold merge_m4a_files, create_file_list, try_except, bind, run, print, ret.
  fold (manifest w m4a_files). fold (merge_cmd w output_file).
  destruct (subprocess_run w (merge_cmd w output_file) 300) as [result|e];
    cbn [List.find fst snd merge_result merge_report].
  - destruct (returncode result =? 0); reflexivity.
  - destruct (isinstance e [TimeoutExpired]); [reflexivity|].
    destruct (isinstance e [Exception]); reflexivity.
Qed.

(** ** C6 *)

(** C6: the merge runs the tool with the timeout 300; it returns
    [True] exactly when the tool has ended with the code 0; when the
    tool ends with another code it returns [False] and the last line
    printed is the error text of the tool; when the timeout expires it
    returns [False] and the last line printed says so, a line that
    differs from every error line of the tool. *)
Theorem merge_m4a_files_outcome (w : World) (m4a_files : list Path)
    (output_file : Path) (fs : filesystem) :
  let ended := subprocess_run w (merge_cmd w output_file) 300 in
  let result := (merge_m4a_files w m4a_files output_file fs).1.1 in
  let events := (merge_m4a_files w m4a_files output_file fs).2 in
  In (Spawn (merge_cmd w output_file) 300) events
  /\ (result = Ret true <-> exists cp, ended = Ret cp /\ returncode cp = 0)
  /\ (forall cp, ended = Ret cp -> returncode cp <> 0 ->
        result = Ret false
        /\ List.last events (Print NoMark "")
           = Print CrossMark (" FFmpeg error: " +:+ stderr cp))
  /\ (forall e, ended = Raise e -> isinstance e [TimeoutExpired] = true ->
        result = Ret false
        /\ List.last events (Print NoMark "")
           = Print CrossMark " Merge timed out (5 minutes)")
  /\ (forall err, " Merge timed out (5 minutes)" <> " FFmpeg error: " +:+ err).
Proof.
  intros ended result events. subst result events.
  rewrite merge_m4a_files_spec. fold ended. cbn [fst snd].
  split; [simpl; tauto|].
  split.
  { split.
    - destruct ended as [cp|e]; cbn [merge_result].
      + intros [= H]. exists cp. split; [reflexivity | now apply Z.eqb_eq].
      + destruct (isinstance e [TimeoutExpired]); [discriminate|].
        destruct (isinstance e [Exception]); discriminate.
    - intros (cp & -> & Hcp). cbn [merge_result]. now rewrite Hcp. }
  split.
  { intros cp -> Hcp. apply Z.eqb_neq in Hcp.
    cbn [merge_result merge_report]. rewrite Hcp. split; reflexivity. }
  split.
  { intros e -> He. cbn [merge_result merge_report]. rewrite He. split; reflexivity. }
  intros err. rewrite !append_cons. discriminate.
Qed.

Lemma merge_m4a_files_outcome_witness :
  (merge_m4a_files (world_with (Ret (finished 0 ""))) four_names (PathOf "merged/out.m4a")
     fs_music).1.1 = Ret true
  /\ ((merge_m4a_files (world_with (Ret (finished 1 "boom"))) four_names
         (PathOf "merged/out.m4a") fs_music).1.1 = Ret false
      /\ List.last (merge_m4a_files (world_with (Ret (finished 1 "boom"))) four_names
                      (PathOf "merged/out.m4a") fs_music).2 (Print NoMark "")
         = Print CrossMark " FFmpeg error: boom")
  /\ ((merge_m4a_files (world_with (Raise (Error TimeoutExpired "timed out"))) four_names
         (PathOf "merged/out.m4a") fs_music).1.1 = Ret false
      /\ List.last (merge_m4a_files (world_with (Raise (Error TimeoutExpired "timed out")))
                      four_names (PathOf "merged/out.m4a") fs_music).2 (Print NoMark "")
         = Print CrossMark " Merge timed out (5 minutes)").
Proof.
  split; [|split].
  - destruct (merge_m4a_files_outcome (world_with (Ret (finished 0 ""))) four_names
                (PathOf "merged/out.m4a") fs_music) as (_ & H & _).
    apply H. exists (finished 0 ""). split; reflexivity.
  - destruct (merge_m4a_files_outcome (world_with (Ret (finished 1 "boom"))) four_names
                (PathOf "merged/out.m4a") fs_music) as (_ & _ & H & _).
    apply (H (finished 1 "boom")); [reflexivity | discriminate].
  - destruct (merge_m4a_files_outcome
                (world_with (Raise (Error TimeoutExpired "timed out"))) four_names
                (PathOf "merged/out.m4a") fs_music) as (_ & _ & _ & H & _).
    apply (H (Error TimeoutExpired "timed out")); reflexivity.
Defined.

(** ** C7 *)

(** When the probe ends with a code other than 0, or the timeout of
    10 expires, or ffmpeg is not found, [check_ffmpeg] returns
    [False]. *)
Lemma check_ffmpeg_unavailable (w : World) (fs : filesystem) :
  (forall cp, subprocess_run w probe_cmd 10 = Ret cp -> returncode cp <> 0 ->
     (check_ffmpeg w fs).1.1 = Ret false)
  /\ (forall e, subprocess_run w probe_cmd 10 = Raise e ->
        isinstance e [TimeoutExpired; FileNotFoundError] = true ->
        (check_ffmpeg w fs).1.1 = Ret false).
Proof.
  rewrite check_ffmpeg_spec. cbn [fst]. split.
  - intros cp -> Hcp. apply Z.eqb_neq in Hcp. now rewrite Hcp.
  - intros e -> He. now rewrite He.
Qed.

(** C7 (the code departs from it): a launch that fails because ffmpeg
    may not be executed raises [PermissionError]; [check_ffmpeg]
    handles [TimeoutExpired] and [FileNotFoundError] only, so it does
    not return [False]: the error leaves it and, the check being made
    outside the [try] of [main], leaves [main] too. *)
Theorem check_ffmpeg_permission_error_escapes :
  check_ffmpeg world_not_executable fs_music
  = (Raise (Error PermissionError "[Errno 13] Permission denied: 'ffmpeg'"),
     fs_music, [Spawn ["ffmpeg"; "-version"] 10])
  /\ outcome_of
       (main world_not_executable
             {| input := "music"; output := "out.m4a"; verbose := false |} fs_music).1.1
     = Uncaught (Error PermissionError "[Errno 13] Permission denied: 'ffmpeg'").
Proof. split; reflexivity. Qed.

(** ** C8 *)

(** C8 (the code departs from it): the quote of a path is written
    into the manifest as it is; the line of /home/u/music/it's.m4a has
    three quotes, the quoted part ends after "it", and the line is not
    of the form [file '<path>']. *)
Theorem manifest_line_quote_not_escaped :
  manifest_line (PathOf "/home/u/music/it's.m4a")
  = "file '/home/u/music/it's.m4a'" +:+ LF
  /\ quoted_path (manifest_line (PathOf "/home/u/music/it's.m4a")) = None
  /\ (create_file_list world_ok [PathOf "music/it's.m4a"] "/tmp/tmpab12cd" fs_music).2
     = [WriteFile (PathOf "/tmp/tmpab12cd/filelist.txt")
                  ("file '/home/u/music/it's.m4a'" +:+ LF)].
Proof. repeat split; reflexivity. Qed.

(** ** [main] written out *)

Lemma find_m4a_files_pure (directory : string) (fs : filesystem) :
  find_m4a_files directory fs = ((find_m4a_files directory fs).1.1, fs, []).
Proof.
  unfold find_m4a_files, bind, get_fs.
  destruct (exists_ fs (PathOf directory)); [|reflexivity].
  destruct (is_dir fs (PathOf directory)); [|reflexivity].
  simpl. destruct (glob fs (PathOf directory) ".m4a"); reflexivity.
Qed.

Lemma for_each_emits {A} (body : A -> M unit) (g : A -> event) (l : list A) :
  (forall x fs, body x fs = (Ret tt, fs, [g x])) ->
  forall fs, for_each l body fs = (Ret tt, fs, map g l).
Proof.
  intros Hbody. induction l as [|x l IH]; intros fs; [reflexivity|].
  simpl. unfold bind. now rewrite Hbody, IH.
Qed.

Lemma verbose_block_run (flag : bool) (m4a_files : list Path) (fs : filesystem) :
  (if flag then
     print NoMark ("Found " +:+ pretty (length m4a_files) +:+ " M4A files:");;
     for_each (enumerate m4a_files 1)
       (fun '(i, file) => print NoMark ("  " +:+ pretty i +:+ ". " +:+ name file));;
     print NoMark ""
   else ret tt) fs
  = (Ret tt, fs, verbose_block flag m4a_files).
Proof.
  destruct flag; [|reflexivity].
  unfold bind, print, verbose_block, listing.
  rewrite (for_each_emits _
             (fun '(i, file) => Print NoMark ("  " +:+ pretty i +:+ ". " +:+ name file))).
  - reflexivity.
  - now intros [i file] fs'.
Qed.

Lemma main_try_spec (w : World) (args : Args) (fs : filesystem) :
  main_try w args fs = main_try_run w args fs.
Proof.
  unfold main_try, main_try_run.
  unfold bind at 1. rewrite find_m4a_files_pure.
  destruct (find_m4a_files (input args) fs).1.1 as [m4a_files|e]; [|reflexivity].
  unfold bind at 1. rewrite verbose_block_run.
  unfold bind at 1. unfold mkdir.
  destruct (Path_mkdir (parent (resolve_output_path (output args))) true true fs)
    as [[u|e] fs'].
  2:{ cbn [fst snd app]. now rewrite !app_nil_r. }
  unfold bind at 1. rewrite merge_m4a_files_spec.
  fold (merge_events w m4a_files (resolve_output_path (output args))).
  destruct (merge_result _) as [[|]|e]; unfold bind, print, sys_exit, raise;
    cbn [fst snd app]; rewrite ?app_nil_r; reflexivity.
Qed.

Lemma try_except_main (body : M unit) (fs : filesystem) :
  try_except body main_except fs
  = match body fs with
    | (Ret a, fs', out) => (Ret a, fs', out)
    | (Raise e, fs', out) => (Raise (main_handled e).2, fs', out ++ (main_handled e).1)
    end.
Proof.
  unfold try_except, main_except, main_handled.
  destruct (body fs) as [[[a|e] fs'] out]; [reflexivity|].
  cbn [List.find fst snd].
  destruct (isinstance e [FileNotFoundError; NotADirectoryError; ValueError]);
    [reflexivity|].
  destruct (isinstance e [KeyboardInterrupt]); [reflexivity|].
  destruct (isinstance e [Exception]); [reflexivity|].
  now rewrite app_nil_r.
Qed.

Lemma main_spec (w : World) (args : Args) (fs : filesystem) :
  main w args fs = main_run w args fs.
Proof.
  unfold main, main_run.
  unfold bind at 1. rewrite check_ffmpeg_spec. cbn [fst snd].
  destruct (match subprocess_run w probe_cmd 10 with
            | Ret result => Ret (returncode result =? 0)
            | Raise e => if isinstance e [TimeoutExpired; FileNotFoundError]
                         then Ret false else Raise e
            end) as [[|]|e]; [| reflexivity | reflexivity].
  unfold bind, ret. cbn [negb].
  rewrite try_except_main, main_try_spec.
  destruct (main_try_run w args fs) as [[[a|e] fs'] out]; reflexivity.
Qed.

(** ** What can be raised in the [try] block *)

Lemma ordinary_error (c : exn_class) (msg : string) :
  issubclass c Exception = true -> ordinary (Error c msg).
Proof. intros H. unfold ordinary, isinstance. simpl. now rewrite H. Qed.

Lemma ordinary_handled (e : exn) : ordinary e -> (main_handled e).2 = SysExit 1.
Proof.
  unfold ordinary. destruct e as [c msg|code]; [|discriminate].
  destruct c; try discriminate; reflexivity.
Qed.

Lemma ordinary_not_exit (e : exn) : ordinary e -> exists c msg, e = Error c msg.
Proof. destruct e as [c msg|code]; [eauto | discriminate]. Qed.

Lemma key_entry_raise (r : string) (e : exn) :
  key_entry r = Raise e -> exists msg, e = Error ValueError msg.
Proof.
  unfold key_entry, int. destruct (isdigit r); [|discriminate].
  destruct (negb (String.eqb r "") && forallb re_digit (list_ascii_of_string r));
    [discriminate|].
  simpl. intros [= <-]. eauto.
Qed.

Lemma natural_sort_key_raise (text : Path + string) (e : exn) :
  natural_sort_key text = Raise e -> exists msg, e = Error ValueError msg.
Proof.
  unfold natural_sort_key. generalize (re_split_digits
    match text with inl p => name p | inr s => s end).
  intros runs. induction runs as [|r runs IH]; [discriminate|].
  simpl. destruct (key_entry r) as [x|e'] eqn:Hr.
  - simpl. destruct (rmap key_entry runs) as [k|e'']; [discriminate|].
    simpl. intros [= <-]. now apply IH.
  - simpl. intros [= <-]. now apply (key_entry_raise r).
Qed.

(** The sort raises [ValueError], from a name without a key, and
    nothing else: [<] never raises [TypeError] on the keys it is given. *)
Lemma sort_by_key_raise (l : list Path) (e : exn) :
  sort_by_key l = Raise e -> exists msg, e = Error ValueError msg.
Proof.
  intros H.
  destruct (rmap (fun p => rbind (natural_sort_key (inl p)) (fun k => Ret (k, p))) l)
    as [d|e'] eqn:Hd.
  - assert (Hk : Forall has_key l).
    { clear H. revert d Hd. induction l as [|p l IH]; intros d Hd; [constructor|].
      simpl in Hd. destruct (natural_sort_key (inl p)) as [k|e''] eqn:Hk; [|discriminate].
      simpl in Hd.
      destruct (rmap (fun p => rbind (natural_sort_key (inl p)) (fun k => Ret (k, p))) l)
        as [d'|e'']; [|discriminate].
      constructor; [now exists k | now apply (IH d')]. }
    destruct (sort_by_key_sorts l Hk) as (l' & Hl' & _). congruence.
  - unfold sort_by_key in H. rewrite Hd in H. simpl in H. injection H as <-.
    clear -Hd. revert Hd. induction l as [|p l IH]; [discriminate|].
    simpl. destruct (natural_sort_key (inl p)) as [k|e''] eqn:Hk.
    + simpl.
      destruct (rmap (fun p => rbind (natural_sort_key (inl p)) (fun k => Ret (k, p))) l)
        as [d'|e'']; [discriminate|].
      simpl. intros [= <-]. now apply IH.
    + simpl. intros [= <-]. now apply (natural_sort_key_raise (inl p)).
Qed.

(** Discovery raises one of its three classes. *)
Lemma find_m4a_files_raise (directory : string) (fs : filesystem) (e : exn) :
  (find_m4a_files directory fs).1.1 = Raise e ->
  exists c msg, e = Error c msg
                /\ In c [FileNotFoundError; NotADirectoryError; ValueError].
Proof.
  unfold find_m4a_files, bind, get_fs.
  destruct (exists_ fs (PathOf directory)).
  2:{ simpl. intros [= <-]. do 2 eexists. split; [reflexivity | simpl; tauto]. }
  destruct (is_dir fs (PathOf directory)).
  2:{ simpl. intros [= <-]. do 2 eexists. split; [reflexivity | simpl; tauto]. }
  simpl. destruct (glob fs (PathOf directory) ".m4a") as [|p l].
  { simpl. intros [= <-]. do 2 eexists. split; [reflexivity | simpl; tauto]. }
  unfold lift. simpl. intros H. apply sort_by_key_raise in H as [msg ->].
  do 2 eexists. split; [reflexivity | simpl; tauto].
Qed.

Lemma os_mkdir_raise (p : Path) (fs fs' : filesystem) (e : exn) :
  os_mkdir p fs = (Raise e, fs') ->
  exists c msg, e = Error c msg /\ issubclass c OSError = true.
Proof.
  unfold os_mkdir. destruct (node_at fs p).
  { intros [= <- _]. do 2 eexists. split; reflexivity. }
  destruct (node_at fs (parent p)) as [[|entries]|]; try discriminate;
    intros [= <- _]; do 2 eexists; split; reflexivity.
Qed.

Lemma mkdir_flat_raise (p : Path) (exist_ok : bool) (fs fs' : filesystem) (e : exn) :
  mkdir_flat p exist_ok fs = (Raise e, fs') ->
  exists c msg, e = Error c msg /\ issubclass c OSError = true.
Proof.
  unfold mkdir_flat. destruct (os_mkdir p fs) as [[u|e'] fs1] eqn:Hos; [discriminate|].
  apply os_mkdir_raise in Hos.
  destruct (isinstance e' [FileNotFoundError]); [now intros [= <- _]|].
  destruct (isinstance e' [OSError]); [|now intros [= <- _]].
  destruct (negb exist_ok || negb (is_dir fs1 p)); [now intros [= <- _] | discriminate].
Qed.

Lemma mkdir_parents_raise (rt : string) (rtail : list string) :
  forall exist_ok fs fs' e,
    mkdir_parents rt rtail exist_ok fs = (Raise e, fs') ->
    exists c msg, e = Error c msg /\ issubclass c OSError = true.
Proof.
  induction rtail as [|n rparent IH]; intros exist_ok fs fs' e; cbn [mkdir_parents];
    destruct (os_mkdir _ fs) as [[u|e'] fs1] eqn:Hos; try discriminate;
    apply os_mkdir_raise in Hos.
  - destruct (isinstance e' [FileNotFoundError]); [now intros [= <- _]|].
    destruct (isinstance e' [OSError]); [|now intros [= <- _]].
    destruct (negb exist_ok || negb (is_dir fs1 _)); [now intros [= <- _] | discriminate].
  - destruct (isinstance e' [FileNotFoundError]).
    + destruct (mkdir_parents rt rparent true fs1) as [[u|e''] fs2] eqn:Hp.
      * apply mkdir_flat_raise.
      * intros [= <- _]. exact (IH _ _ _ _ Hp).
    + destruct (isinstance e' [OSError]); [|now intros [= <- _]].
      destruct (negb exist_ok || negb (is_dir fs1 _)); [now intros [= <- _] | discriminate].
Qed.

Lemma Path_mkdir_raise (p : Path) (parents exist_ok : bool) (fs fs' : filesystem) (e : exn) :
  Path_mkdir p parents exist_ok fs = (Raise e, fs') ->
  exists c msg, e = Error c msg /\ issubclass c OSError = true.
Proof.
  unfold Path_mkdir. destruct parents; [apply mkdir_parents_raise | apply mkdir_flat_raise].
Qed.

Lemma issubclass_OSError_Exception (c : exn_class) :
  issubclass c OSError = true -> issubclass c Exception = true.
Proof. destruct c; try discriminate; reflexivity. Qed.

(** The [try] block never returns: it leaves with [SystemExit] 0 or
    1 or with an ordinary exception. *)
Lemma main_try_run_leaves (w : World) (args : Args) (fs : filesystem) :
  raises_ordinary w ->
  exists e, (main_try_run w args fs).1.1 = Raise e
            /\ (e = SysExit 0 \/ e = SysExit 1 \/ ordinary e).
Proof.
  intros Hw. unfold main_try_run.
  destruct (find_m4a_files (input args) fs).1.1 as [m4a_files|e] eqn:Hf.
  2:{ exists e. split; [reflexivity|]. right; right.
      apply find_m4a_files_raise in Hf as (c & msg & -> & Hc).
      apply ordinary_error. simpl in Hc.
      destruct Hc as [<-|[<-|[<-|[]]]]; reflexivity. }
  cbv zeta.
  destruct (Path_mkdir _ true true fs) as [[u|e] fs'] eqn:Hm.
  2:{ exists e. split; [reflexivity|]. right; right.
      apply Path_mkdir_raise in Hm as (c & msg & -> & Hc).
      apply ordinary_error. now apply issubclass_OSError_Exception. }
  destruct (subprocess_run w _ 300) as [cp|e] eqn:Hr; cbn [merge_result].
  - destruct (returncode cp =? 0); eexists; (split; [reflexivity | tauto]).
  - destruct (isinstance e [TimeoutExpired]); [eexists; split; [reflexivity | tauto]|].
    destruct (isinstance e [Exception]); [eexists; split; [reflexivity | tauto]|].
    exists e. split; [reflexivity|]. right; right. exact (Hw _ _ _ Hr).
Qed.

(** ** C9 *)

Lemma main_run_exits (w : World) (args : Args) (fs : filesystem) :
  raises_ordinary w ->
  (check_ffmpeg w fs).1.1 = Ret true ->
  exists code,
    (main_run w args fs).1.1 = Raise (SysExit code)
    /\ (code = 0 \/ code = 1)
    /\ (code = 0 <-> (main_try_run w args fs).1.1 = Raise (SysExit 0)).
Proof.
  intros Hw Hc. unfold main_run. rewrite Hc.
  destruct (main_try_run_leaves w args fs Hw) as (e & He & Hcases).
  destruct (main_try_run w args fs) as [[r fs'] out]. simpl in He. subst r.
  cbn [fst snd].
  destruct Hcases as [-> | [-> | Hord]].
  - exists 0. repeat split; auto.
  - exists 1. repeat split; auto; [intros [=] | intros [=]].
  - rewrite (ordinary_handled e Hord). exists 1. repeat split; auto; [intros [=]|].
    intros [= ->]. discriminate.
Qed.

Lemma main_try_run_success (w : World) (args : Args) (fs : filesystem) :
  raises_ordinary w ->
  (main_try_run w args fs).1.1 = Raise (SysExit 0) <->
  exists m4a_files u fs',
    (find_m4a_files (input args) fs).1.1 = Ret m4a_files
    /\ Path_mkdir (parent (resolve_output_path (output args))) true true fs = (Ret u, fs')
    /\ (merge_m4a_files w m4a_files (resolve_output_path (output args)) fs').1.1 = Ret true.
Proof.
  intros Hw. unfold main_try_run.
  destruct (find_m4a_files (input args) fs).1.1 as [m4a_files|e] eqn:Hf.
  2:{ split.
      - cbn [fst]. intros [= ->].
        apply find_m4a_files_raise in Hf as (c & msg & [=] & _).
      - intros (? & ? & ? & [=] & _). }
  cbv zeta.
  destruct (Path_mkdir _ true true fs) as [[u|e] fs'] eqn:Hm.
  2:{ split.
      - cbn [fst]. intros [= ->].
        apply Path_mkdir_raise in Hm as (c & msg & [=] & _).
      - intros (? & ? & ? & _ & [=] & _). }
  split.
  - intros H. exists m4a_files, u, fs'. split; [reflexivity|]. split; [reflexivity|].
    rewrite merge_m4a_files_spec. cbn [fst].
    destruct (subprocess_run w _ 300) as [cp|e] eqn:Hr; cbn [merge_result] in *.
    + destruct (returncode cp =? 0); [reflexivity | discriminate].
    + destruct (isinstance e [TimeoutExpired]); [discriminate|].
      destruct (isinstance e [Exception]); [discriminate|].
      cbn [fst] in H. injection H as ->.
      apply Hw in Hr. discriminate.
  - intros (l & u' & fs'' & [= <-] & [= <- <-] & Hmerge).
    rewrite merge_m4a_files_spec in Hmerge. cbn [fst] in Hmerge.
    now rewrite Hmerge.
Qed.

(** X21: in a world where a child process that does not end raises an
    exception or the interrupt of the operator, [main] never exits
    with a code other than 0 and 1; it exits with 0 exactly when the
    run succeeds in full; it exits with 1 when the tool is
    unavailable, when discovery raises, when the directory of the
    output cannot be made, when the merge returns [False] and when the
    operator interrupts the merge; and the only exceptions that leave
    [main] unhandled are those that leave the availability check. *)
Theorem main_exit_status (w : World) (args : Args) (fs : filesystem) :
  raises_ordinary w ->
  let status := outcome_of (main w args fs).1.1 in
  let checked := (check_ffmpeg w fs).1.1 in
  let found := (find_m4a_files (input args) fs).1.1 in
  let output_path := resolve_output_path (output args) in
  let made := Path_mkdir (parent output_path) true true fs in
  (forall code, status = Exited code -> code = 0 \/ code = 1)
  /\ (status = Exited 0 <-> full_success w args fs)
  /\ (checked = Ret false -> status = Exited 1)
  /\ (checked = Ret true -> forall e, found = Raise e -> status = Exited 1)
  /\ (checked = Ret true -> forall m4a_files e,
        found = Ret m4a_files -> made.1 = Raise e -> status = Exited 1)
  /\ (checked = Ret true -> forall m4a_files u,
        found = Ret m4a_files -> made.1 = Ret u ->
        (merge_m4a_files w m4a_files output_path made.2).1.1 = Ret false ->
        status = Exited 1)
  /\ (checked = Ret true -> forall m4a_files u e,
        found = Ret m4a_files -> made.1 = Ret u ->
        subprocess_run w (merge_cmd w output_path) 300 = Raise e ->
        isinstance e [KeyboardInterrupt] = true ->
        status = Exited 1
        /\ In (Print CrossMark " Merge cancelled by user") (main w args fs).2)
  /\ (forall e, status = Uncaught e <-> checked = Raise e).
Proof.
  intros Hw status checked found output_path made.
  assert (Hexit : checked = Ret true ->
                  exists code, status = Exited code /\ (code = 0 \/ code = 1)
                               /\ (code = 0 <-> full_success w args fs)).
  { intros Hc. destruct (main_run_exits w args fs Hw Hc) as (code & Hrun & Hcode & Hzero).
    exists code. subst status. rewrite main_spec, Hrun. split; [reflexivity|].
    split; [exact Hcode|]. rewrite Hzero, (main_try_run_success w args fs Hw).
    unfold full_success. fold checked. tauto. }
  assert (Hfalse : checked = Ret false -> status = Exited 1).
  { intros Hc. subst status. rewrite main_spec. unfold main_run.
    fold checked. now rewrite Hc. }
  assert (Hraise : forall e, checked = Raise e -> status = Uncaught e).
  { intros e Hc. subst status. rewrite main_spec. unfold main_run.
    fold checked. rewrite Hc. cbn [fst].
    assert (Hord : ordinary e).
    { subst checked. rewrite check_ffmpeg_spec in Hc. cbn [fst] in Hc.
      destruct (subprocess_run w probe_cmd 10) as [cp|e'] eqn:Hr; [discriminate|].
      destruct (isinstance e' [TimeoutExpired; FileNotFoundError]); [discriminate|].
      injection Hc as <-. exact (Hw _ _ _ Hr). }
    apply ordinary_not_exit in Hord as (c & msg & ->). reflexivity. }
  assert (Hone : checked = Ret true -> ~ full_success w args fs -> status = Exited 1).
  { intros Hc Hno. destruct (Hexit Hc) as (code & Hst & [-> | ->] & Hzero);
      [exfalso; apply Hno; now apply Hzero | exact Hst]. }
  split.
  { intros code Hst.
    destruct checked as [[|]|e] eqn:Hc.
    - destruct (Hexit eq_refl) as (code' & Hst' & Hcode & _). congruence.
    - rewrite (Hfalse eq_refl) in Hst. injection Hst as <-. now right.
    - rewrite (Hraise e eq_refl) in Hst. discriminate. }
  split.
  { split.
    - intros Hst. destruct checked as [[|]|e] eqn:Hc.
      + destruct (Hexit eq_refl) as (code' & Hst' & _ & Hzero).
        apply Hzero. congruence.
      + rewrite (Hfalse eq_refl) in Hst. discriminate.
      + rewrite (Hraise e eq_refl) in Hst. discriminate.
    - intros Hs. pose proof Hs as [Hc _]. fold checked in Hc.
      destruct (Hexit Hc) as (code' & Hst' & _ & Hzero).
      rewrite Hst'. f_equal. now apply Hzero. }
  split; [exact Hfalse|].
  split.
  { intros Hc e Hf. apply (Hone Hc). intros (_ & l & u & fs' & Hf' & _).
    fold found in Hf'. congruence. }
  split.
  { intros Hc l e Hf Hm. apply (Hone Hc). intros (_ & l' & u & fs' & _ & Hm' & _).
    fold output_path in Hm'. fold made in Hm'. rewrite Hm' in Hm. discriminate. }
  split.
  { intros Hc l u Hf Hm Hmerge. apply (Hone Hc).
    intros (_ & l' & u' & fs' & Hf' & Hm' & Hmerge').
    fold found in Hf'. fold output_path in Hm', Hmerge'. fold made in Hm'.
    rewrite Hf in Hf'. injection Hf' as <-.
    rewrite Hm' in Hmerge. cbn [snd] in Hmerge. congruence. }
  split.
  { intros Hc l u e Hf Hm Hr Hki. split.
    - apply (Hone Hc). intros (_ & l' & u' & fs' & _ & _ & Hmerge').
      rewrite merge_m4a_files_spec in Hmerge'. cbn [fst] in Hmerge'.
      fold output_path in Hmerge'. rewrite Hr in Hmerge'.
      destruct e as [c msg|code]; [|discriminate].
      destruct c; try discriminate.
    - rewrite main_spec. unfold main_run. fold checked. rewrite Hc.
      unfold main_try_run. fold found. rewrite Hf. cbv zeta.
      fold output_path. fold made.
      destruct made as [[u'|e'] fs']; [|discriminate].
      rewrite Hr.
      destruct e as [c msg|code]; [|discriminate].
      destruct c; try discriminate.
      cbn. rewrite !in_app_iff. simpl. tauto. }
  intros e. split; [|apply Hraise].
  intros Hst. destruct checked as [[|]|e'] eqn:Hc.
  - destruct (Hexit eq_refl) as (code' & Hst' & _). congruence.
  - rewrite (Hfalse eq_refl) in Hst. discriminate.
  - rewrite (Hraise e' eq_refl) in Hst. congruence.
Qed.

Lemma main_exit_status_witness :
  outcome_of (main world_missing args_music fs_music).1.1 = Exited 1
  /\ (outcome_of (main (world_with (Raise (Error KeyboardInterrupt ""))) args_music
                       fs_music).1.1 = Exited 1
      /\ In (Print CrossMark " Merge cancelled by user")
            (main (world_with (Raise (Error KeyboardInterrupt ""))) args_music fs_music).2).
Proof.
  split.
  - apply (main_exit_status world_missing args_music fs_music).
    + intros cmd timeout e [= <-]. reflexivity.
    + reflexivity.
  - apply (main_exit_status (world_with (Raise (Error KeyboardInterrupt ""))) args_music
             fs_music)
      with (m4a_files := map PathOf ["music/a1.m4a"; "music/a2.m4a"; "music/a10.m4a"])
           (u := tt) (e := Error KeyboardInterrupt "").
    + intros cmd timeout e. simpl. destruct (timeout =? 10); [discriminate|].
      intros [= <-]. reflexivity.
    + reflexivity.
    + reflexivity.
    + reflexivity.
    + reflexivity.
    + reflexivity.
Defined.

(** C9 (the code departs from it): an interrupt of the operator that
    arrives while the availability probe runs is raised by the probe
    as [KeyboardInterrupt]; [check_ffmpeg] does not catch it and,
    the check being made before the [try] of [main], neither does
    [main]: the run ends by the unhandled interrupt, not by
    [sys.exit(1)].  The same interrupt arriving during the merge is
    handled and gives the exit status 1. *)
Theorem main_interrupt_during_check_unhandled :
  check_ffmpeg world_probe_interrupted fs_music
  = (Raise (Error KeyboardInterrupt ""), fs_music, [Spawn ["ffmpeg"; "-version"] 10])
  /\ main world_probe_interrupted args_music fs_music
     = (Raise (Error KeyboardInterrupt ""), fs_music, [Spawn ["ffmpeg"; "-version"] 10])
  /\ outcome_of (main world_probe_interrupted args_music fs_music).1.1
     = Uncaught (Error KeyboardInterrupt "")
  /\ outcome_of (main world_probe_interrupted args_music fs_music).1.1 <> Exited 1
  /\ outcome_of (main (world_with (Raise (Error KeyboardInterrupt ""))) args_music
                      fs_music).1.1 = Exited 1.
Proof.
  split; [reflexivity|]. split; [reflexivity|]. split; [reflexivity|].
  split; [discriminate | reflexivity].
Qed.

(** ** C10 *)

Lemma listing_prints (m4a_files : list Path) :
  List.filter (fun ev => negb (is_print ev)) (listing m4a_files) = [].
Proof.
  unfold listing. cbn [List.filter is_print negb].
  rewrite List.filter_app. cbn [List.filter is_print negb]. rewrite app_nil_r.
  generalize 1%nat. induction m4a_files as [|p l IH]; intros i; [reflexivity|].
  simpl. apply IH.
Qed.

(** C10: with the world, the file system, the input directory and the
    output path fixed, the run with the verbose flag and the run
    without it end alike and leave the same file system; they write
    the same manifest and spawn the same commands in the same order;
    and what the first one emits is what the second one emits with the
    listing of the discovered files, which is printed lines only, put
    in at one place. *)
Theorem verbose_changes_listing_only (w : World) (directory out : string) (fs : filesystem) :
  let loud := main w {| input := directory; output := out; verbose := true |} fs in
  let quiet := main w {| input := directory; output := out; verbose := false |} fs in
  loud.1.1 = quiet.1.1
  /\ outcome_of loud.1.1 = outcome_of quiet.1.1
  /\ loud.1.2 = quiet.1.2
  /\ List.filter (fun ev => negb (is_print ev)) loud.2
     = List.filter (fun ev => negb (is_print ev)) quiet.2
  /\ exists before listed after,
       loud.2 = before ++ listed ++ after
       /\ quiet.2 = before ++ after
       /\ (listed = []
           \/ exists m4a_files,
                (find_m4a_files directory fs).1.1 = Ret m4a_files
                /\ listed = listing m4a_files).
Proof.
  intros loud quiet. subst loud quiet. rewrite !main_spec.
  unfold main_run, main_try_run. cbn [input output verbose verbose_block].
  destruct (check_ffmpeg w fs).1.1 as [[|]|e];
    [| repeat (split; [reflexivity|]); exists [], []; eexists;
       split; [reflexivity | split; [reflexivity | now left]]
     | repeat (split; [reflexivity|]); exists [], []; eexists;
       split; [reflexivity | split; [reflexivity | now left]]].
  destruct (find_m4a_files directory fs).1.1 as [m4a_files|e];
    [| repeat (split; [reflexivity|]); exists [], []; eexists;
       split; [reflexivity | split; [reflexivity | now left]]].
  cbv zeta.
  destruct (Path_mkdir _ true true fs) as [[u|e] fs'].
  2:{ cbn [fst snd app].
      split; [reflexivity|]. split; [reflexivity|]. split; [reflexivity|].
      split.
      - cbn [List.filter is_print negb]. f_equal.
        rewrite !List.filter_app, listing_prints. reflexivity.
      - exists [Spawn probe_cmd 10], (listing m4a_files), (main_handled e).1.
        repeat split; eauto. }
  destruct (merge_result _) as [[|]|e]; cbn [fst snd app];
    (split; [reflexivity|]); (split; [reflexivity|]); (split; [reflexivity|]); split;
    try (cbn [List.filter is_print negb]; f_equal;
         rewrite !List.filter_app, listing_prints; reflexivity).
  - exists [Spawn probe_cmd 10], (listing m4a_files). eexists.
    split; [|split; [|right; eauto]]; cbn [app]; rewrite <- ?app_assoc; reflexivity.
  - exists [Spawn probe_cmd 10], (listing m4a_files). eexists.
    split; [|split; [|right; eauto]]; cbn [app]; rewrite <- ?app_assoc; reflexivity.
  - exists [Spawn probe_cmd 10], (listing m4a_files). eexists.
    split; [|split; [|right; eauto]]; cbn [app]; rewrite <- ?app_assoc; reflexivity.
Qed.

(** * Further properties of the program *)

(** ** Keys *)

Lemma alternating_length (runs : list string) :
  forall digits, alternating digits runs = true -> Nat.odd (length runs) = negb digits.
Proof.
  induction runs as [|r runs IH]; intros digits H; [discriminate|].
  destruct runs as [|r' runs'].
  - simpl in H. apply andb_true_iff in H as [Hd _]. now rewrite Hd.
  - change (run_ok digits r && alternating (negb digits) (r' :: runs') = true) in H.
    apply andb_true_iff in H as [_ H]. apply IH in H.
    change (length (r :: r' :: runs')) with (S (length (r' :: runs'))).
    rewrite Nat.odd_succ, <- Nat.negb_odd, H. now destruct digits.
Qed.

Lemma rmap_length {A B} (f : A -> res B) (l : list A) :
  forall k, rmap f l = Ret k -> length k = length l.
Proof.
  induction l as [|x l IH]; intros k; simpl.
  - now intros [= <-].
  - destruct (f x) as [y|e]; [|discriminate]. simpl.
    destruct (rmap f l) as [ys|e]; [|discriminate]. simpl.
    intros [= <-]. simpl. now rewrite (IH ys).
Qed.

Lemma rmap_Forall {A B} (f : A -> res B) (P : B -> Prop) (l : list A) :
  (forall x y, f x = Ret y -> P y) ->
  forall k, rmap f l = Ret k -> Forall P k.
Proof.
  intros Hf. induction l as [|x l IH]; intros k; simpl.
  - intros [= <-]. constructor.
  - destruct (f x) as [y|e] eqn:Hx; [|discriminate]. simpl.
    destruct (rmap f l) as [ys|e]; [|discriminate]. simpl.
    intros [= <-]. constructor; [exact (Hf x y Hx) | now apply IH].
Qed.

Lemma decimal_value_nonneg (s : string) :
  all_digits s = true -> 0 <= decimal_value s.
Proof.
  unfold all_digits, decimal_value.
  assert (H : forall cs acc, forallb re_digit cs = true -> 0 <= acc ->
                0 <= fold_left (fun acc c => 10 * acc + digit_value c) cs acc).
  { induction cs as [|c cs IH]; intros acc Hcs Hacc; [exact Hacc|].
    simpl in Hcs. apply andb_true_iff in Hcs as [Hc Hcs]. simpl.
    apply IH; [exact Hcs|].
    unfold re_digit in Hc. apply andb_true_iff in Hc as [Hlo _].
    apply Nat.leb_le in Hlo. unfold digit_value. lia. }
  intros Hs. apply H; [exact Hs | lia].
Qed.

Lemma key_entry_nonneg (r : string) (x : key_item) :
  key_entry r = Ret x -> nonneg_item x.
Proof.
  unfold key_entry, int. destruct (isdigit r); [|now intros [= <-]].
  destruct (negb (String.eqb r "") && forallb re_digit (list_ascii_of_string r)) eqn:Hd;
    [|discriminate].
  simpl. intros [= <-]. simpl. apply decimal_value_nonneg.
  now apply andb_true_iff in Hd as [_ Hd].
Qed.

(** X1: whatever the text, the key [natural_sort_key] returns starts
    and ends with a [str], its entries alternate between [str] and
    [int], so it has an odd number of entries, and no [int] of it is
    negative. *)
Theorem natural_sort_key_shape (text : Path + string) (k : key) :
  natural_sort_key text = Ret k ->
  alternates false k = true
  /\ Nat.odd (length k) = true
  /\ Forall nonneg_item k.
Proof.
  intros Hk. split; [exact (natural_sort_key_alternates text k Hk)|].
  unfold natural_sort_key in Hk. split.
  - rewrite (rmap_length _ _ _ Hk).
    apply (alternating_length _ false).
    now apply re_split_from_alternating.
  - exact (rmap_Forall key_entry nonneg_item _ key_entry_nonneg k Hk).
Qed.

Lemma natural_sort_key_shape_witness :
  alternates false [KStr "media"; KInt 10; KStr ".m"; KInt 4; KStr "a"] = true
  /\ Nat.odd (length [KStr "media"; KInt 10; KStr ".m"; KInt 4; KStr "a"]) = true
  /\ Forall nonneg_item [KStr "media"; KInt 10; KStr ".m"; KInt 4; KStr "a"].
Proof. apply (natural_sort_key_shape (inr "media10.m4a")). reflexivity. Defined.

(** X3: on the keys of any names, [<] returns a boolean (it never
    raises [TypeError]) and is a strict total order: no key is below
    itself, of two keys not both are below the other, below is
    transitive, and two keys neither of which is below the other are
    equal. *)
Theorem key_comparison_total_order (a b c : Path + string) (ka kb kc : key) :
  natural_sort_key a = Ret ka ->
  natural_sort_key b = Ret kb ->
  natural_sort_key c = Ret kc ->
  (exists below, list_lt ka kb = Ret below)
  /\ list_lt ka ka = Ret false
  /\ (list_lt ka kb = Ret true -> list_lt kb ka = Ret false)
  /\ (list_lt ka kb = Ret true -> list_lt kb kc = Ret true -> list_lt ka kc = Ret true)
  /\ (list_lt ka kb = Ret false -> list_lt kb ka = Ret false -> ka = kb).
Proof.
  intros Ha Hb Hc.
  apply natural_sort_key_alternates in Ha, Hb, Hc.
  rewrite !(list_lt_alternates _ _ false) by assumption.
  unfold key_ltb.
  split; [eauto|].
  split; [now rewrite (proj2 (key_compare_eq ka ka) eq_refl)|].
  split.
  { rewrite (key_compare_antisym ka kb). now destruct (key_compare ka kb). }
  split.
  { destruct (key_compare ka kb) eqn:Hab; try discriminate.
    destruct (key_compare kb kc) eqn:Hbc; try discriminate.
    now rewrite (key_compare_trans _ _ _ _ Hab Hbc). }
  rewrite (key_compare_antisym ka kb).
  destruct (key_compare ka kb) eqn:Hab; simpl; try discriminate.
  intros _ _. now apply key_compare_eq.
Qed.

Lemma key_comparison_total_order_witness :
  (exists below, list_lt [KStr "a"; KInt 2; KStr ""] [KStr "a"; KInt 10; KStr ""] = Ret below)
  /\ list_lt [KStr "a"; KInt 2; KStr ""] [KStr "a"; KInt 2; KStr ""] = Ret false
  /\ (list_lt [KStr "a"; KInt 2; KStr ""] [KStr "a"; KInt 10; KStr ""] = Ret true ->
      list_lt [KStr "a"; KInt 10; KStr ""] [KStr "a"; KInt 2; KStr ""] = Ret false)
  /\ (list_lt [KStr "a"; KInt 2; KStr ""] [KStr "a"; KInt 10; KStr ""] = Ret true ->
      list_lt [KStr "a"; KInt 10; KStr ""] [KStr "b"; KInt 1; KStr ""] = Ret true ->
      list_lt [KStr "a"; KInt 2; KStr ""] [KStr "b"; KInt 1; KStr ""] = Ret true)
  /\ (list_lt [KStr "a"; KInt 2; KStr ""] [KStr "a"; KInt 10; KStr ""] = Ret false ->
      list_lt [KStr "a"; KInt 10; KStr ""] [KStr "a"; KInt 2; KStr ""] = Ret false ->
      [KStr "a"; KInt 2; KStr ""] = [KStr "a"; KInt 10; KStr ""]).
Proof.
  apply (key_comparison_total_order (inr "a2") (inr "a10") (inr "b1")); reflexivity.
Defined.

(** X4: the sort of a list of paths returns exactly when every name
    has a key; when it does not return it raises [ValueError], never
    [TypeError]; when it returns, the result holds the same paths, in
    the order of their keys, and paths of equal keys keep the order
    they had. *)
Theorem sort_by_key_returns_or_value_error (l : list Path) :
  (Forall has_key l <-> exists l', sort_by_key l = Ret l')
  /\ (forall e, sort_by_key l = Raise e -> exists msg, e = Error ValueError msg)
  /\ (forall l', sort_by_key l = Ret l' ->
        Permutation l l'
        /\ StronglySorted (fun p q => key_le (path_key p) (path_key q)) l'
        /\ forall k, List.filter (fun p => key_eqb (path_key p) k) l'
                     = List.filter (fun p => key_eqb (path_key p) k) l).
Proof.
  split; [split|split].
  - intros H. destruct (sort_by_key_sorts l H) as (l' & Hl' & _). eauto.
  - intros [l' Hl']. exact (sort_by_key_has_key l l' Hl').
  - exact (sort_by_key_raise l).
  - intros l' Hl'.
    destruct (sort_by_key_sorts l (sort_by_key_has_key l l' Hl')) as (l'' & Hl'' & H).
    rewrite Hl' in Hl''. injection Hl'' as <-. exact H.
Qed.




(** ** Discovery *)

Lemma glob_children (fs : filesystem) (d : Path) (suffix : string) :
  Forall (fun p => parent p = d /\ endswith (name p) suffix = true) (glob fs d suffix).
Proof.
  unfold glob. destruct (node_at fs d) as [[|entries]|]; try constructor.
  apply Forall_map. apply List.Forall_forall. intros n Hn.
  apply filter_In in Hn as [_ Hn]. unfold parent, name. simpl.
  rewrite removelast_last, last_last. split; [apply Path_eta | exact Hn].
Qed.

(** X6: when discovery returns, the directory is a directory, nothing
    has been changed or printed, and the list returned is not empty,
    holds exactly the entries of the directory whose name ends in
    .m4a, each as a child of the directory, is sorted by key, and
    keeps entries of equal keys in scan order. *)
Theorem find_m4a_files_result (directory : string) (fs fs' : filesystem)
    (m4a_files : list Path) (out : list event) :
  find_m4a_files directory fs = (Ret m4a_files, fs', out) ->
  fs' = fs /\ out = [] /\ m4a_files <> []
  /\ is_dir fs (PathOf directory) = true
  /\ Permutation (glob fs (PathOf directory) ".m4a") m4a_files
  /\ Forall (fun p => parent p = PathOf directory /\ endswith (name p) ".m4a" = true)
            m4a_files
  /\ StronglySorted (fun p q => key_le (path_key p) (path_key q)) m4a_files
  /\ forall k, List.filter (fun p => key_eqb (path_key p) k) m4a_files
               = List.filter (fun p => key_eqb (path_key p) k)
                             (glob fs (PathOf directory) ".m4a").
Proof.
  intros H.
  destruct (find_m4a_files_returns directory fs fs' m4a_files out H)
    as (Hfs & Hout & Hne & Hperm & Hsorted & Hstable).
  repeat split; try assumption.
  - unfold find_m4a_files, bind, get_fs in H.
    destruct (exists_ fs (PathOf directory)); [|discriminate].
    destruct (is_dir fs (PathOf directory)); [reflexivity | discriminate].
  - rewrite <- Hperm. apply glob_children.
Qed.

Lemma find_m4a_files_result_witness :
  fs_music = fs_music /\ @nil event = []
  /\ map PathOf ["music/a1.m4a"; "music/a2.m4a"; "music/a10.m4a"] <> []
  /\ is_dir fs_music (PathOf "music") = true
  /\ Permutation (glob fs_music (PathOf "music") ".m4a")
                 (map PathOf ["music/a1.m4a"; "music/a2.m4a"; "music/a10.m4a"])
  /\ Forall (fun p => parent p = PathOf "music" /\ endswith (name p) ".m4a" = true)
            (map PathOf ["music/a1.m4a"; "music/a2.m4a"; "music/a10.m4a"])
  /\ StronglySorted (fun p q => key_le (path_key p) (path_key q))
                    (map PathOf ["music/a1.m4a"; "music/a2.m4a"; "music/a10.m4a"])
  /\ forall k, List.filter (fun p => key_eqb (path_key p) k)
                           (map PathOf ["music/a1.m4a"; "music/a2.m4a"; "music/a10.m4a"])
               = List.filter (fun p => key_eqb (path_key p) k)
                             (glob fs_music (PathOf "music") ".m4a").
Proof. apply (find_m4a_files_result "music" fs_music). reflexivity. Defined.

Lemma filter_Permutation_bool {A} (f : A -> bool) (l1 l2 : list A) :
  Permutation l1 l2 -> Permutation (List.filter f l1) (List.filter f l2).
Proof.
  induction 1 as [|x l1 l2 _ IH|x y l|l1 l2 l3 _ IH1 _ IH2]; simpl.
  - constructor.
  - destruct (f x); [now constructor | exact IH].
  - destruct (f x), (f y); try reflexivity. apply perm_swap.
  - now transitivity (List.filter f l2).
Qed.

Lemma NoDup_map_same {A B} (f : A -> B) (l : list A) (x y : A) :
  List.NoDup (map f l) -> In x l -> In y l -> f x = f y -> x = y.
Proof.
  induction l as [|z l IH]; intros Hnd Hx Hy Hxy; [contradiction|].
  simpl in Hnd. apply List.NoDup_cons_iff in Hnd as [Hz Hnd].
  destruct Hx as [<-|Hx], Hy as [<-|Hy].
  - reflexivity.
  - exfalso. apply Hz. rewrite Hxy. now apply in_map.
  - exfalso. apply Hz. rewrite <- Hxy. now apply in_map.
  - now apply IH.
Qed.

(** Two sorted lists with the same entries are equal when entries
    that are each not after the other are the same entry. *)
Lemma sorted_permutation_unique {A} (R : A -> A -> Prop) (l1 : list A) :
  forall l2,
    StronglySorted R l1 -> StronglySorted R l2 -> Permutation l1 l2 ->
    (forall x y, In x l1 -> In y l1 -> R x y -> R y x -> x = y) ->
    l1 = l2.
Proof.
  induction l1 as [|x l1 IH]; intros l2 H1 H2 Hperm Hanti.
  - apply Permutation_nil in Hperm. now subst.
  - destruct l2 as [|y l2].
    { apply Permutation_sym, Permutation_nil in Hperm. discriminate. }
    apply StronglySorted_inv in H1 as [H1 Hx].
    apply StronglySorted_inv in H2 as [H2 Hy].
    assert (Hxy : x = y).
    { assert (Hyin : In y (x :: l1)).
      { apply (Permutation_in y (Permutation_sym Hperm)). now left. }
      assert (Hxin : In x (y :: l2)).
      { apply (Permutation_in x Hperm). now left. }
      destruct Hyin as [Heq | Hyin]; [exact Heq|].
      destruct Hxin as [Heq | Hxin]; [now symmetry|].
      rewrite List.Forall_forall in Hx, Hy.
      apply Hanti; [now left | now right | exact (Hx y Hyin) | exact (Hy x Hxin)]. }
    subst y. f_equal. apply IH; try assumption.
    + now apply Permutation_cons_inv in Hperm.
    + intros a b Ha Hb. apply Hanti; now right.
Qed.

Lemma sort_by_key_order_irrelevant (l1 l2 r : list Path) :
  Permutation l1 l2 -> List.NoDup (map path_key l1) ->
  sort_by_key l1 = Ret r -> sort_by_key l2 = Ret r.
Proof.
  intros Hperm Hnd Hr.
  pose proof (sort_by_key_has_key l1 r Hr) as Hk1.
  assert (Hk2 : Forall has_key l2) by now rewrite <- Hperm.
  destruct (sort_by_key_sorts l1 Hk1) as (r1 & Hr1 & Hp1 & Hs1 & _).
  destruct (sort_by_key_sorts l2 Hk2) as (r2 & Hr2 & Hp2 & Hs2 & _).
  rewrite Hr in Hr1. injection Hr1 as <-. rewrite Hr2. f_equal. symmetry.
  apply (sorted_permutation_unique _ r r2 Hs1 Hs2).
  - now rewrite <- Hp1, Hperm.
  - intros x y Hx Hy Hxy Hyx.
    assert (Hnd' : List.NoDup (map path_key r)).
    { eapply Permutation_NoDup; [|exact Hnd]. now apply Permutation_map. }
    apply (NoDup_map_same path_key r x y Hnd' Hx Hy).
    unfold key_le in *. rewrite (key_compare_antisym (path_key x) (path_key y)) in Hyx.
    destruct (key_compare (path_key x) (path_key y)) eqn:Hc; simpl in *;
      [now apply key_compare_eq | now elim Hyx | now elim Hxy].
Qed.

(** X7: the order in which a directory is scanned does not matter
    when no two matching names have the same key: two file systems
    whose directories list the same entries in different orders give
    the same discovered list. *)
Theorem find_m4a_files_scan_order (directory : string) (fs1 fs2 : filesystem)
    (entries1 entries2 : list string) (m4a_files : list Path) :
  node_at fs1 (PathOf directory) = Some (Dir entries1) ->
  node_at fs2 (PathOf directory) = Some (Dir entries2) ->
  Permutation entries1 entries2 ->
  List.NoDup (map path_key (glob fs1 (PathOf directory) ".m4a")) ->
  (find_m4a_files directory fs1).1.1 = Ret m4a_files ->
  (find_m4a_files directory fs2).1.1 = Ret m4a_files.
Proof.
  intros H1 H2 Hperm Hnd.
  assert (Hglob : Permutation (glob fs1 (PathOf directory) ".m4a")
                              (glob fs2 (PathOf directory) ".m4a")).
  { unfold glob. rewrite H1, H2. apply Permutation_map.
    now apply filter_Permutation_bool. }
  unfold find_m4a_files, bind, get_fs, exists_, is_dir. rewrite H1, H2. simpl.
  destruct (glob fs1 (PathOf directory) ".m4a") as [|p1 l1] eqn:Hg1; [discriminate|].
  destruct (glob fs2 (PathOf directory) ".m4a") as [|p2 l2] eqn:Hg2.
  { apply Permutation_sym, Permutation_nil in Hglob. discriminate. }
  unfold lift. simpl. apply sort_by_key_order_irrelevant; assumption.
Qed.

Lemma find_m4a_files_scan_order_witness :
  (find_m4a_files "music" fs_music_rescanned).1.1
  = Ret (map PathOf ["music/a1.m4a"; "music/a2.m4a"; "music/a10.m4a"]).
Proof.
  apply (find_m4a_files_scan_order "music" fs_music fs_music_rescanned
           ["a10.m4a"; "a1.m4a"; "notes.txt"; "a2.m4a"]
           ["a1.m4a"; "a10.m4a"; "notes.txt"; "a2.m4a"]).
  - reflexivity.
  - reflexivity.
  - apply perm_swap.
  - vm_compute. repeat constructor; simpl; intuition discriminate.
  - reflexivity.
Defined.

(** ** The manifest *)

(** X8: the path of a manifest line is read back from the line
    exactly when the path holds no single quote. *)
Theorem manifest_line_read_back (p : Path) :
  quoted_path (manifest_line p) = Some (str p) <-> contains_char quote (str p) = false.
Proof.
  split.
  - intros H. destruct (contains_char quote (str p)) eqn:Hq; [|reflexivity].
    exfalso. exact (quoted_path_with_quote p Hq H).
  - apply quoted_path_plain.
Qed.

(** X9: when no resolved path holds a line feed or a single quote,
    reading the manifest that [create_file_list] writes, line by line,
    gives back the resolved paths of the files, one per file and in
    the order of the list. *)
Theorem manifest_read_back (w : World) (m4a_files : list Path) (temp_dir : string)
    (fs : filesystem) :
  Forall (fun p => contains_char "010" (str (resolve w p)) = false
                   /\ contains_char quote (str (resolve w p)) = false) m4a_files ->
  exists content,
    (create_file_list w m4a_files temp_dir fs).2
    = [WriteFile (joinstr (PathOf temp_dir) "filelist.txt") content]
    /\ read_manifest content = map (fun p => Some (str (resolve w p))) m4a_files.
Proof.
  intros H. eexists. split; [reflexivity|].
  rewrite written_unlines, append_nil. unfold read_manifest.
  rewrite text_lines_unlines.
  2:{ apply Forall_map. eapply Forall_impl; [exact H|].
      intros p [Hp _]. simpl. rewrite !contains_char_app, Hp. reflexivity. }
  rewrite map_map. induction H as [|p l [_ Hq] _ IH]; [reflexivity|].
  cbn [map]. rewrite IH. f_equal.
  rewrite !append_assoc. exact (quoted_path_plain (resolve w p) Hq).
Qed.

Lemma manifest_read_back_witness :
  exists content,
    (create_file_list world_ok (map PathOf ["music/a1.m4a"; "music/a2.m4a"]) "/tmp/t"
       fs_music).2
    = [WriteFile (joinstr (PathOf "/tmp/t") "filelist.txt") content]
    /\ read_manifest content
       = map (fun p => Some (str (resolve world_ok p)))
             (map PathOf ["music/a1.m4a"; "music/a2.m4a"]).
Proof.
  apply (manifest_read_back world_ok (map PathOf ["music/a1.m4a"; "music/a2.m4a"])
           "/tmp/t" fs_music).
  repeat constructor.
Defined.

(** ** The output path *)

(** X10: read as pure paths, an output argument with a root or with
    two components or more is left as it is, and one without a root
    and with at most one component is put under merged; the parent of
    the resolved path is "." only when the argument is read as "."
    (the resolved path is merged then). *)
Theorem resolve_output_path_cases (output : string) :
  let p := PathOf output in
  ((root p <> "" \/ (2 <= length (tail p))%nat) -> resolve_output_path output = p)
  /\ (root p = "" -> (length (tail p) <= 1)%nat ->
      resolve_output_path output = MkPath "" ("merged" :: tail p))
  /\ (Path_eqb (parent (resolve_output_path output)) (PathOf ".") = true
      <-> p = PathOf ".").
Proof.
  intros p. split; [exact (resolve_output_path_with_parent output)|].
  subst p. unfold resolve_output_path, Path_eqb, parent, joinpath.
  change (PathOf ".") with (MkPath "" []). change (PathOf "merged") with (MkPath "" ["merged"]).
  destruct (PathOf output) as [rt tl]. cbn [root tail].
  destruct (String.eqb_spec rt "") as [->|Hrt].
  - destruct tl as [|a [|b tl]].
    + split; [reflexivity|]. split; reflexivity.
    + split; [reflexivity|]. split; discriminate.
    + split; [simpl; lia|]. simpl. split; discriminate.
  - split; [contradiction|]. cbn [andb root tail].
    pose proof Hrt as Hrt'. apply String.eqb_neq in Hrt'. rewrite Hrt'. cbn [andb].
    split; [discriminate | intros [= H _]; contradiction].
Qed.

(** X11: an output argument that is a bare file name (not empty, not
    ".", without "/") is put under merged: the path is
    merged/<name>, and the directory that is made is merged. *)
Theorem bare_output_goes_under_merged (file : string) :
  file <> "" -> file <> "." -> contains_char "/" file = false ->
  resolve_output_path file = MkPath "" ["merged"; file]
  /\ str (resolve_output_path file) = "merged/" +:+ file
  /\ parent (resolve_output_path file) = PathOf "merged".
Proof.
  intros Hne Hdot Hsep.
  destruct (resolve_output_path_bare file Hne Hdot Hsep) as [Hp Hs].
  split; [exact Hp|]. split; [exact Hs|]. now rewrite Hp.
Qed.

Lemma bare_output_goes_under_merged_witness :
  resolve_output_path "out.m4a" = MkPath "" ["merged"; "out.m4a"]
  /\ str (resolve_output_path "out.m4a") = "merged/" +:+ "out.m4a"
  /\ parent (resolve_output_path "out.m4a") = PathOf "merged".
Proof.
  apply (bare_output_goes_under_merged "out.m4a"); [discriminate | discriminate | reflexivity].
Defined.

(** X12: making the directory of the output is idempotent: on a
    directory that exists it returns and changes nothing, and once it
    has returned the path is a directory and making it again returns
    and changes nothing. *)
Theorem output_directory_made_once (p : Path) (fs : filesystem) :
  (is_dir fs p = true -> Path_mkdir p true true fs = (Ret tt, fs))
  /\ (forall u fs', Path_mkdir p true true fs = (Ret u, fs') ->
        is_dir fs' p = true /\ Path_mkdir p true true fs' = (Ret tt, fs')).
Proof.
  split; [apply mkdir_existing|].
  intros u fs' H. split; [exact (mkdir_made p fs fs' u H)|].
  apply mkdir_existing. exact (mkdir_made p fs fs' u H).
Qed.

Lemma output_directory_made_once_witness :
  Path_mkdir (PathOf "music") true true fs_music = (Ret tt, fs_music)
  /\ is_dir (Path_mkdir (PathOf "new/sub") true true fs_music).2 (PathOf "new/sub") = true.
Proof.
  split.
  - apply (output_directory_made_once (PathOf "music") fs_music). reflexivity.
  - destruct (output_directory_made_once (PathOf "new/sub") fs_music) as [_ H].
    apply (H tt (Path_mkdir (PathOf "new/sub") true true fs_music).2). reflexivity.
Defined.

(** ** The child process, further *)

(** X13: the availability check changes nothing, spawns the probe
    once with the timeout 10, and returns [True] exactly when the probe
    ends with the code 0, [False] exactly when it ends with another
    code or raises [TimeoutExpired] or [FileNotFoundError]; it raises
    exactly what the probe raises outside these two classes. *)
Theorem check_ffmpeg_outcomes (w : World) (fs : filesystem) :
  let ended := subprocess_run w ["ffmpeg"; "-version"] 10 in
  (check_ffmpeg w fs).1.2 = fs
  /\ (check_ffmpeg w fs).2 = [Spawn ["ffmpeg"; "-version"] 10]
  /\ ((check_ffmpeg w fs).1.1 = Ret true <-> exists cp, ended = Ret cp /\ returncode cp = 0)
  /\ ((check_ffmpeg w fs).1.1 = Ret false <->
      (exists cp, ended = Ret cp /\ returncode cp <> 0)
      \/ (exists e, ended = Raise e
                    /\ isinstance e [TimeoutExpired; FileNotFoundError] = true))
  /\ (forall e, (check_ffmpeg w fs).1.1 = Raise e <->
                ended = Raise e
                /\ isinstance e [TimeoutExpired; FileNotFoundError] = false).
Proof.
  intros ended. rewrite check_ffmpeg_spec. cbn [fst snd]. fold probe_cmd in ended.
  fold ended. split; [reflexivity|]. split; [reflexivity|].
  destruct ended as [cp|e].
  - split; [|split].
    + split.
      * intros [= H]. exists cp. split; [reflexivity | now apply Z.eqb_eq].
      * intros (cp' & [= <-] & H). now rewrite H.
    + split.
      * intros [= H]. left. exists cp. split; [reflexivity | now apply Z.eqb_neq].
      * intros [(cp' & [= <-] & H) | (e & [=] & _)].
        apply Z.eqb_neq in H. now rewrite H.
    + intros e. split; [discriminate | intros [[=] _]].
  - destruct (isinstance e [TimeoutExpired; FileNotFoundError]) eqn:He.
    + split; [|split].
      * split; [discriminate | intros (cp & [=] & _)].
      * split; [intros _; right; eauto | reflexivity].
      * intros e'. split; [discriminate | intros [[= <-] H]; congruence].
    + split; [|split].
      * split; [discriminate | intros (cp & [=] & _)].
      * split; [discriminate|].
        intros [(cp & [=] & _) | (e' & [= <-] & H)]. congruence.
      * intros e'. split; [intros [= <-]; split; [reflexivity | exact He]|].
        now intros [[= <-] _].
Qed.

(** X14: when the child process of the merge cannot be launched or
    fails in another way than by a timeout, the merge returns [False]
    after printing the error as its last line; an interrupt of the
    operator, which is no [Exception], is not swallowed: it leaves the
    merge, and no diagnostic is printed. *)
Theorem merge_m4a_files_launch_failure (w : World) (m4a_files : list Path)
    (output_file : Path) (fs : filesystem) (e : exn) :
  subprocess_run w (merge_cmd w output_file) 300 = Raise e ->
  isinstance e [TimeoutExpired] = false ->
  let result := (merge_m4a_files w m4a_files output_file fs).1.1 in
  let events := (merge_m4a_files w m4a_files output_file fs).2 in
  (isinstance e [Exception] = true ->
     result = Ret false
     /\ List.last events (Print NoMark "")
        = Print CrossMark (" Error during merge: " +:+ str_exn e))
  /\ (isinstance e [Exception] = false ->
        result = Raise e
        /\ List.last events (Print NoMark "") = Spawn (merge_cmd w output_file) 300).
Proof.
  intros Hr Ht result events. subst result events.
  rewrite merge_m4a_files_spec, Hr. cbn [fst snd merge_result merge_report].
  rewrite Ht. split; intros He; rewrite He; split; reflexivity.
Qed.

Lemma merge_m4a_files_launch_failure_witness :
  (merge_m4a_files (world_with (Raise (Error FileNotFoundError "no ffmpeg"))) four_names
     (PathOf "merged/out.m4a") fs_music).1.1 = Ret false
  /\ List.last (merge_m4a_files (world_with (Raise (Error FileNotFoundError "no ffmpeg")))
                  four_names (PathOf "merged/out.m4a") fs_music).2 (Print NoMark "")
     = Print CrossMark " Error during merge: no ffmpeg".
Proof.
  apply (merge_m4a_files_launch_failure
           (world_with (Raise (Error FileNotFoundError "no ffmpeg"))) four_names
           (PathOf "merged/out.m4a") fs_music (Error FileNotFoundError "no ffmpeg"));
    reflexivity.
Defined.

Lemma prints_no_spawn (l : list event) :
  Forall (fun ev => is_print ev = true) l -> spawns l = [] /\ writes l = [].
Proof.
  induction 1 as [|ev l Hev _ [IH1 IH2]]; [split; reflexivity|].
  destruct ev; try discriminate. unfold spawns, writes in *. simpl. now split.
Qed.

Lemma listing_is_print (m4a_files : list Path) :
  Forall (fun ev => is_print ev = true) (listing m4a_files).
Proof.
  unfold listing. constructor; [reflexivity|].
  apply Forall_app. split; [|repeat constructor].
  apply Forall_map. apply List.Forall_forall. now intros [i file] _.
Qed.

Lemma verbose_block_is_print (flag : bool) (m4a_files : list Path) :
  Forall (fun ev => is_print ev = true) (verbose_block flag m4a_files).
Proof. destruct flag; [apply listing_is_print | constructor]. Qed.

Lemma merge_report_is_print (r : res CompletedProcess) :
  Forall (fun ev => is_print ev = true) (merge_report r).
Proof.
  destruct r as [cp|e]; cbn [merge_report].
  - destruct (returncode cp =? 0); repeat constructor.
  - destruct (isinstance e [TimeoutExpired]); [repeat constructor|].
    destruct (isinstance e [Exception]); repeat constructor.
Qed.

(** X15: whatever the outcome, the merge writes the manifest of the
    files exactly once and spawns exactly one child process, with the
    timeout 300, after the write; the argument after -i of its command
    line is the path of the manifest written and the last argument is
    the output path. *)
Theorem merge_m4a_files_effects (w : World) (m4a_files : list Path)
    (output_file : Path) (fs : filesystem) :
  let manifest_path := joinstr (PathOf (temp_dir w)) "filelist.txt" in
  let events := (merge_m4a_files w m4a_files output_file fs).2 in
  writes events = [WriteFile manifest_path (manifest w m4a_files)]
  /\ spawns events = [Spawn (merge_cmd w output_file) 300]
  /\ List.hd (Print NoMark "") events = WriteFile manifest_path (manifest w m4a_files)
  /\ nth 6 (merge_cmd w output_file) "" = str manifest_path
  /\ List.last (merge_cmd w output_file) "" = str output_file.
Proof.
  intros manifest_path events. subst events. rewrite merge_m4a_files_spec. cbn [fst snd].
  destruct (prints_no_spawn _ (merge_report_is_print
              (subprocess_run w (merge_cmd w output_file) 300))) as [Hs Hw].
  unfold spawns, writes in *.
  rewrite !List.filter_app, Hs, Hw.
  repeat split; reflexivity.
Qed.

(** ** Whole runs *)

(** X16: when the availability check returns [False], [main] prints
    the two lines about the missing tool and exits with 1; it does
    nothing else: no discovery, no directory, no manifest, no second
    child process. *)
Theorem main_tool_unavailable (w : World) (args : Args) (fs : filesystem) :
  (check_ffmpeg w fs).1.1 = Ret false ->
  main w args fs
  = (Raise (SysExit 1), fs,
     [Spawn ["ffmpeg"; "-version"] 10;
      Print CrossMark " FFmpeg is not installed or not in PATH";
      Print NoMark "Please install FFmpeg: https://ffmpeg.org/download.html"]).
Proof. intros H. rewrite main_spec. unfold main_run. now rewrite H. Qed.

Lemma main_tool_unavailable_witness :
  main (world_probe 1) args_music fs_music
  = (Raise (SysExit 1), fs_music,
     [Spawn ["ffmpeg"; "-version"] 10;
      Print CrossMark " FFmpeg is not installed or not in PATH";
      Print NoMark "Please install FFmpeg: https://ffmpeg.org/download.html"]).
Proof. apply (main_tool_unavailable (world_probe 1) args_music fs_music). reflexivity. Defined.

(** X17: when the tool is available and discovery raises, [main]
    prints one line, the message of the error after "Error:", and
    exits with 1; the file system is unchanged and nothing else is
    emitted, with or without the verbose flag. *)
Theorem main_discovery_failure (w : World) (args : Args) (fs : filesystem) (e : exn) :
  (check_ffmpeg w fs).1.1 = Ret true ->
  (find_m4a_files (input args) fs).1.1 = Raise e ->
  main w args fs
  = (Raise (SysExit 1), fs,
     [Spawn ["ffmpeg"; "-version"] 10; Print CrossMark (" Error: " +:+ str_exn e)]).
Proof.
  intros Hc Hf. rewrite main_spec. unfold main_run, main_try_run. rewrite Hc, Hf.
  apply find_m4a_files_raise in Hf as (c & msg & -> & Hin).
  simpl in Hin. destruct Hin as [<-|[<-|[<-|[]]]]; reflexivity.
Qed.

Lemma main_discovery_failure_witness :
  main world_ok {| input := "nowhere"; output := "out.m4a"; verbose := true |} fs_music
  = (Raise (SysExit 1), fs_music,
     [Spawn ["ffmpeg"; "-version"] 10;
      Print CrossMark (" Error: " +:+ "Directory 'nowhere' does not exist")]).
Proof.
  apply (main_discovery_failure world_ok
           {| input := "nowhere"; output := "out.m4a"; verbose := true |} fs_music
           (Error FileNotFoundError "Directory 'nowhere' does not exist")); reflexivity.
Defined.

Lemma mkdir_parents_on_file (rt : string) (rtail : list string) (fs : filesystem) :
  node_at fs (MkPath rt (rev rtail)) = Some File ->
  mkdir_parents rt rtail true fs
  = (Raise (Error FileExistsError
              ("[Errno 17] File exists: '" +:+ str (MkPath rt (rev rtail)) +:+ "'")), fs).
Proof.
  intros H.
  assert (Hos : os_mkdir (MkPath rt (rev rtail)) fs
                = (Raise (Error FileExistsError
                            ("[Errno 17] File exists: '" +:+ str (MkPath rt (rev rtail))
                             +:+ "'")), fs)).
  { unfold os_mkdir. now rewrite H. }
  assert (Hd : is_dir fs (MkPath rt (rev rtail)) = false).
  { unfold is_dir. now rewrite H. }
  destruct rtail; cbn [mkdir_parents]; rewrite Hos;
    change (isinstance (Error FileExistsError _) [FileNotFoundError]) with false;
    change (isinstance (Error FileExistsError _) [OSError]) with true;
    cbv iota; rewrite Hd; reflexivity.
Qed.

Lemma mkdir_on_file (p : Path) (fs : filesystem) :
  node_at fs p = Some File ->
  Path_mkdir p true true fs
  = (Raise (Error FileExistsError ("[Errno 17] File exists: '" +:+ str p +:+ "'")), fs).
Proof.
  intros H. unfold Path_mkdir.
  rewrite <- (Path_eta p) in H. rewrite <- (rev_involutive (tail p)) in H.
  rewrite (mkdir_parents_on_file _ _ fs H).
  now rewrite rev_involutive, Path_eta.
Qed.

(** X18: when the parent of the output path is a regular file, the
    directory cannot be made: [main] exits with 1 after printing the
    error as an unexpected one; the file system is unchanged, no
    manifest is written and no child process but the probe is spawned. *)
Theorem main_output_parent_is_file (w : World) (args : Args) (fs : filesystem)
    (m4a_files : list Path) :
  (check_ffmpeg w fs).1.1 = Ret true ->
  (find_m4a_files (input args) fs).1.1 = Ret m4a_files ->
  node_at fs (parent (resolve_output_path (output args))) = Some File ->
  (main w args fs).1.1 = Raise (SysExit 1)
  /\ (main w args fs).1.2 = fs
  /\ spawns (main w args fs).2 = [Spawn ["ffmpeg"; "-version"] 10]
  /\ writes (main w args fs).2 = []
  /\ List.last (main w args fs).2 (Print NoMark "")
     = Print CrossMark (" Unexpected error: [Errno 17] File exists: '"
                        +:+ str (parent (resolve_output_path (output args))) +:+ "'").
Proof.
  intros Hc Hf Hn. rewrite main_spec. unfold main_run, main_try_run.
  rewrite Hc, Hf. cbv zeta. rewrite (mkdir_on_file _ fs Hn). cbn [fst snd main_handled].
  change (isinstance (Error FileExistsError _) [FileNotFoundError; NotADirectoryError; ValueError])
    with false.
  change (isinstance (Error FileExistsError _) [KeyboardInterrupt]) with false.
  change (isinstance (Error FileExistsError _) [Exception]) with true.
  cbn [fst snd str_exn].
  destruct (prints_no_spawn _ (verbose_block_is_print (verbose args) m4a_files)) as [Hs Hw].
  unfold spawns, writes in *.
  split; [reflexivity|]. split; [reflexivity|].
  cbn [List.filter]. rewrite !List.filter_app, Hs, Hw.
  split; [reflexivity|]. split; [reflexivity|].
  change (Spawn probe_cmd 10 :: verbose_block (verbose args) m4a_files ++ ?l)
    with ((Spawn probe_cmd 10 :: verbose_block (verbose args) m4a_files) ++ l).
  apply last_last.
Qed.

Lemma main_output_parent_is_file_witness :
  (main world_ok {| input := "music"; output := "readme.txt/out.m4a"; verbose := false |}
        fs_music).1.1 = Raise (SysExit 1)
  /\ (main world_ok {| input := "music"; output := "readme.txt/out.m4a"; verbose := false |}
           fs_music).1.2 = fs_music
  /\ spawns (main world_ok
               {| input := "music"; output := "readme.txt/out.m4a"; verbose := false |}
               fs_music).2 = [Spawn ["ffmpeg"; "-version"] 10]
  /\ writes (main world_ok
               {| input := "music"; output := "readme.txt/out.m4a"; verbose := false |}
               fs_music).2 = []
  /\ List.last (main world_ok
                  {| input := "music"; output := "readme.txt/out.m4a"; verbose := false |}
                  fs_music).2 (Print NoMark "")
     = Print CrossMark (" Unexpected error: [Errno 17] File exists: '"
                        +:+ "readme.txt" +:+ "'").
Proof.
  apply (main_output_parent_is_file world_ok
           {| input := "music"; output := "readme.txt/out.m4a"; verbose := false |} fs_music
           (map PathOf ["music/a1.m4a"; "music/a2.m4a"; "music/a10.m4a"])); reflexivity.
Defined.

Lemma main_after_merge (w : World) (args : Args) (fs fs' : filesystem)
    (m4a_files : list Path) (u : unit) :
  (check_ffmpeg w fs).1.1 = Ret true ->
  (find_m4a_files (input args) fs).1.1 = Ret m4a_files ->
  Path_mkdir (parent (resolve_output_path (output args))) true true fs = (Ret u, fs') ->
  let output_path := resolve_output_path (output args) in
  let ended := subprocess_run w (merge_cmd w output_path) 300 in
  main w args fs
  = match merge_result ended with
    | Ret true =>
        (Raise (SysExit 0), fs',
         (Spawn probe_cmd 10 :: verbose_block (verbose args) m4a_files
          ++ merge_events w m4a_files output_path)
         ++ [Print CheckMark (" Merged file saved to: " +:+ str (resolve w output_path))])
    | Ret false =>
        (Raise (SysExit 1), fs',
         (Spawn probe_cmd 10 :: verbose_block (verbose args) m4a_files
          ++ merge_events w m4a_files output_path)
         ++ [Print CrossMark " Merge failed"])
    | Raise e =>
        (Raise (main_handled e).2, fs',
         (Spawn probe_cmd 10 :: verbose_block (verbose args) m4a_files
          ++ merge_events w m4a_files output_path)
         ++ (main_handled e).1)
    end.
Proof.
  intros Hc Hf Hm output_path ended. rewrite main_spec. unfold main_run, main_try_run.
  rewrite Hc, Hf. cbv zeta. rewrite Hm. fold output_path. fold ended.
  destruct (merge_result ended) as [[|]|e];
    rewrite ?app_nil_r; cbn [app fst snd]; rewrite <- ?app_assoc; reflexivity.
Qed.

Lemma merge_events_effects (w : World) (m4a_files : list Path) (output_file : Path) :
  spawns (merge_events w m4a_files output_file) = [Spawn (merge_cmd w output_file) 300]
  /\ writes (merge_events w m4a_files output_file)
     = [WriteFile (joinstr (PathOf (temp_dir w)) "filelist.txt") (manifest w m4a_files)].
Proof.
  unfold merge_events.
  destruct (prints_no_spawn _ (merge_report_is_print
              (subprocess_run w (merge_cmd w output_file) 300))) as [Hs Hw].
  unfold spawns, writes in *. rewrite !List.filter_app, Hs, Hw. split; reflexivity.
Qed.

Lemma run_effects (flag : bool) (w : World) (m4a_files : list Path) (output_file : Path)
    (final : list event) :
  Forall (fun ev => is_print ev = true) final ->
  spawns ((Spawn probe_cmd 10 :: verbose_block flag m4a_files
           ++ merge_events w m4a_files output_file) ++ final)
  = [Spawn probe_cmd 10; Spawn (merge_cmd w output_file) 300]
  /\ writes ((Spawn probe_cmd 10 :: verbose_block flag m4a_files
              ++ merge_events w m4a_files output_file) ++ final)
     = [WriteFile (joinstr (PathOf (temp_dir w)) "filelist.txt") (manifest w m4a_files)].
Proof.
  intros Hfinal.
  destruct (prints_no_spawn _ (verbose_block_is_print flag m4a_files)) as [Hs1 Hw1].
  destruct (prints_no_spawn _ Hfinal) as [Hs2 Hw2].
  destruct (merge_events_effects w m4a_files output_file) as [Hs3 Hw3].
  unfold spawns, writes in *.
  rewrite !List.filter_app. cbn [List.filter]. rewrite !List.filter_app.
  rewrite Hs1, Hs2, Hs3, Hw1, Hw2, Hw3. split; reflexivity.
Qed.

(** X19: a run in which the tool is available, discovery returns
    files, the directory of the output is made and the child process
    of the merge ends with the code 0 exits with 0; it leaves the file
    system as making the directory left it, with the parent of the
    output path a directory; it writes one manifest, that of the
    discovered files, spawns the probe and then the merge, and its last
    line is the success line with the resolved output path. *)
Theorem main_success_run (w : World) (args : Args) (fs fs' : filesystem)
    (m4a_files : list Path) (u : unit) (cp : CompletedProcess) :
  (check_ffmpeg w fs).1.1 = Ret true ->
  (find_m4a_files (input args) fs).1.1 = Ret m4a_files ->
  Path_mkdir (parent (resolve_output_path (output args))) true true fs = (Ret u, fs') ->
  subprocess_run w (merge_cmd w (resolve_output_path (output args))) 300 = Ret cp ->
  returncode cp = 0 ->
  (main w args fs).1.1 = Raise (SysExit 0)
  /\ (main w args fs).1.2 = fs'
  /\ is_dir fs' (parent (resolve_output_path (output args))) = true
  /\ writes (main w args fs).2
     = [WriteFile (joinstr (PathOf (temp_dir w)) "filelist.txt") (manifest w m4a_files)]
  /\ spawns (main w args fs).2
     = [Spawn ["ffmpeg"; "-version"] 10;
        Spawn (merge_cmd w (resolve_output_path (output args))) 300]
  /\ List.last (main w args fs).2 (Print NoMark "")
     = Print CheckMark (" Merged file saved to: "
                        +:+ str (resolve w (resolve_output_path (output args)))).
Proof.
  intros Hc Hf Hm Hr Hcp.
  rewrite (main_after_merge w args fs fs' m4a_files u Hc Hf Hm). cbv zeta.
  rewrite Hr. cbn [merge_result]. rewrite Hcp. cbn [Z.eqb fst snd].
  destruct (run_effects (verbose args) w m4a_files (resolve_output_path (output args))
              [Print CheckMark (" Merged file saved to: "
                 +:+ str (resolve w (resolve_output_path (output args))))])
    as [Hs Hw]; [repeat constructor|].
  split; [reflexivity|]. split; [reflexivity|].
  split; [exact (mkdir_made _ fs fs' u Hm)|].
  split; [exact Hw|]. split; [exact Hs|]. apply last_last.
Qed.

Lemma main_success_run_witness :
  (main world_ok args_music fs_music).1.1 = Raise (SysExit 0)
  /\ (main world_ok args_music fs_music).1.2
     = (Path_mkdir (PathOf "merged") true true fs_music).2
  /\ is_dir (Path_mkdir (PathOf "merged") true true fs_music).2
            (parent (resolve_output_path (output args_music))) = true
  /\ writes (main world_ok args_music fs_music).2
     = [WriteFile (joinstr (PathOf (temp_dir world_ok)) "filelist.txt")
                  (manifest world_ok
                     (map PathOf ["music/a1.m4a"; "music/a2.m4a"; "music/a10.m4a"]))]
  /\ spawns (main world_ok args_music fs_music).2
     = [Spawn ["ffmpeg"; "-version"] 10;
        Spawn (merge_cmd world_ok (resolve_output_path (output args_music))) 300]
  /\ List.last (main world_ok args_music fs_music).2 (Print NoMark "")
     = Print CheckMark (" Merged file saved to: "
                        +:+ str (resolve world_ok (resolve_output_path (output args_music)))).
Proof.
  apply (main_success_run world_ok args_music fs_music
           (Path_mkdir (PathOf "merged") true true fs_music).2
           (map PathOf ["music/a1.m4a"; "music/a2.m4a"; "music/a10.m4a"]) tt
           (finished 0 "")); reflexivity.
Defined.

(** X20: a run in which the tool is available, discovery returns
    files and the directory of the output is made, but the child
    process of the merge ends with a code other than 0 or does not end
    within the timeout, exits with 1; its last two lines are the
    diagnostic (the error text of the tool, or the timed-out line) and
    the line "Merge failed". *)
Theorem main_merge_failure (w : World) (args : Args) (fs fs' : filesystem)
    (m4a_files : list Path) (u : unit) :
  (check_ffmpeg w fs).1.1 = Ret true ->
  (find_m4a_files (input args) fs).1.1 = Ret m4a_files ->
  Path_mkdir (parent (resolve_output_path (output args))) true true fs = (Ret u, fs') ->
  let ended := subprocess_run w (merge_cmd w (resolve_output_path (output args))) 300 in
  (forall cp, ended = Ret cp -> returncode cp <> 0 ->
     (main w args fs).1.1 = Raise (SysExit 1)
     /\ exists before,
          (main w args fs).2
          = before ++ [Print CrossMark (" FFmpeg error: " +:+ stderr cp);
                       Print CrossMark " Merge failed"])
  /\ (forall e, ended = Raise e -> isinstance e [TimeoutExpired] = true ->
        (main w args fs).1.1 = Raise (SysExit 1)
        /\ exists before,
             (main w args fs).2
             = before ++ [Print CrossMark " Merge timed out (5 minutes)";
                          Print CrossMark " Merge failed"]).
Proof.
  intros Hc Hf Hm ended.
  rewrite (main_after_merge w args fs fs' m4a_files u Hc Hf Hm). cbv zeta.
  fold ended. unfold merge_events. fold ended. split.
  - intros cp -> Hcp. apply Z.eqb_neq in Hcp. cbn [merge_result merge_report].
    rewrite Hcp. split; [reflexivity|]. cbn [fst snd].
    eexists. rewrite app_comm_cons, !app_assoc, <- app_assoc. reflexivity.
  - intros e -> He. cbn [merge_result merge_report]. rewrite He.
    split; [reflexivity|]. cbn [fst snd].
    eexists. rewrite app_comm_cons, !app_assoc, <- app_assoc. reflexivity.
Qed.

Lemma main_merge_failure_witness :
  (main (world_with (Ret (finished 1 "boom"))) args_music fs_music).1.1 = Raise (SysExit 1)
  /\ exists before,
       (main (world_with (Ret (finished 1 "boom"))) args_music fs_music).2
       = before ++ [Print CrossMark (" FFmpeg error: " +:+ stderr (finished 1 "boom"));
                    Print CrossMark " Merge failed"].
Proof.
  destruct (main_merge_failure (world_with (Ret (finished 1 "boom"))) args_music fs_music
              (Path_mkdir (PathOf "merged") true true fs_music).2
              (map PathOf ["music/a1.m4a"; "music/a2.m4a"; "music/a10.m4a"]) tt
              eq_refl eq_refl eq_refl) as [H _].
  apply (H (finished 1 "boom")); [reflexivity | discriminate].
Defined.
